(** * Overseer worker: the job execution engine of [cmd_worker.go]

    A shallow embedding of the worker sub-command ([notify], [runTest]) and
    of the [k8s-svc] protocol tester, with the properties the specification
    states about them.

    Conventions.
    - Go's [int], [int64] and [time.Duration] are 64-bit two's-complement
      integers; they are carried as [Z] and every addition the source
      performs is wrapped by [wrap64].
    - A Go [error] is carried by its message; [nil] is [None].
    - Everything outside the process (DNS, the probed service, the redis
      queue, the clock, the cluster API) lives in an abstract [World] that
      is threaded through the calls; the operations on it are the fields of
      [Env].  Each call into the world is also recorded in a call log
      ([Event]), so that "how many times" and "in which order" can be
      stated. *)

From Stdlib Require Import ZArith String Ascii Lia.
From stdpp Require Import base option list strings gmap pretty.

Local Open Scope Z_scope.

(** ** Machine integers *)

Definition max_int : Z := 9223372036854775807.
Definition min_int : Z := -9223372036854775808.

(** Two's-complement wrap-around of a 64-bit signed result. *)
Definition wrap64 (z : Z) : Z := (z + 2 ^ 63) mod 2 ^ 64 - 2 ^ 63.

(** ** Strings *)

(** [strings.Contains(s, substr)] on byte strings. *)
Fixpoint strings_Contains (s substr : string) : bool :=
  if String.prefix substr s then true
  else match s with
       | EmptyString => false
       | String _ s' => strings_Contains s' substr
       end.

(** [strings.Split(s, sep)] for a one-byte separator: the pieces between
    the occurrences of [sep] (always at least one piece). *)
Fixpoint strings_Split1 (s : string) (sep : ascii) (cur : string) : list string :=
  match s with
  | EmptyString => [cur]
  | String c s' =>
      if Ascii.eqb c sep then cur :: strings_Split1 s' sep EmptyString
      else strings_Split1 s' sep (cur +:+ String c EmptyString)
  end.

(** ** Data model *)

Definition error : Type := string.

(** [test.Test]. *)
Record Test : Type := mkTest {
  Test_Target : string;
  Test_Type : string;
  Test_Input : string;
  Test_Arguments : gmap string string
}.

(** [test.TestOptions]. *)
Record TestOptions : Type := mkTestOptions {
  Opt_Verbose : bool;
  Opt_Timeout : Z
}.

(** The handle returned by [redis.NewClient]. *)
Record redis_Client : Type := mkRedisClient {
  redis_Addr : string;
  redis_Password : string;
  redis_DB : Z
}.

(** [workerCmd]; [_r] is a pointer, [None] is the nil pointer. *)
Record workerCmd : Type := mkWorkerCmd {
  IPv4 : bool;
  IPv6 : bool;
  Retry : bool;
  RetryCount : Z;
  RetryDelay : Z;
  RedisHost : string;
  RedisDB : Z;
  RedisPassword : string;
  Timeout : Z;
  Verbose : bool;
  _r : option redis_Client
}.

(** ** Addresses: [net.IP] is a byte slice *)

Definition IP : Type := list Byte.byte.

#[global] Instance byte_eq_decision : EqDecision Byte.byte := Byte.byte_eq_dec.

Definition v4InV6Prefix : list Byte.byte :=
  [Byte.x00; Byte.x00; Byte.x00; Byte.x00; Byte.x00;
   Byte.x00; Byte.x00; Byte.x00; Byte.x00; Byte.x00;
   Byte.xff; Byte.xff].

Definition isZeros (p : list Byte.byte) : bool :=
  forallb (fun b => Byte.eqb b Byte.x00) p.

(** [ip[i] == b], false out of range (the source only indexes after the
    length test). *)
Definition byte_is (ip : IP) (i : nat) (b : Byte.byte) : bool :=
  match ip !! i with
  | Some c => Byte.eqb c b
  | None => false
  end.

(** [ip.To4()]: the 4-byte form, or nil. *)
Definition To4 (ip : IP) : option IP :=
  if (length ip =? 4)%nat then Some ip
  else if (length ip =? 16)%nat
          && isZeros (take 10 ip)
          && byte_is ip 10 Byte.xff
          && byte_is ip 11 Byte.xff
       then Some (take 4 (drop 12 ip))
       else None.

(** [ip.To16()]: the 16-byte form, or nil. *)
Definition To16 (ip : IP) : option IP :=
  if (length ip =? 4)%nat then Some (v4InV6Prefix ++ ip)%list
  else if (length ip =? 16)%nat then Some ip
  else None.

(** ** The call log *)

Inductive Arg : Type :=
| AStr (s : string)
| AInt (n : Z)
| ADuration (d : Z).

Inductive Event : Type :=
| EvLookupIP (host : string)
| EvRunTest (tst : Test) (target : string) (opts : TestOptions) (res : option error)
| EvSleep (d : Z)
| EvNotify (test : Test) (result : option error)
| EvRPush (key : string) (payload : string) (res : option error)
| EvPrintf (format : string) (args : list Arg).

Definition is_RunTest (e : Event) : bool :=
  match e with EvRunTest _ _ _ _ => true | _ => false end.
Definition is_Sleep (e : Event) : bool :=
  match e with EvSleep _ => true | _ => false end.
Definition is_Notify (e : Event) : bool :=
  match e with EvNotify _ _ => true | _ => false end.
Definition is_RPush (e : Event) : bool :=
  match e with EvRPush _ _ _ => true | _ => false end.
Definition is_LookupIP (e : Event) : bool :=
  match e with EvLookupIP _ => true | _ => false end.

(** ** Computations of the worker

    A computation runs in a world and either returns, panics (a Go run-time
    panic, which nothing in the worker recovers from) or is cut off because
    the step budget of a loop ran out. *)

Inductive Res (A : Type) : Type :=
| Done (a : A)
| Panic (msg : string)
| OutOfFuel.
Arguments Done {A} a.
Arguments Panic {A} msg.
Arguments OutOfFuel {A}.

Record Out (World A : Type) : Type := mkOut {
  out_res : Res A;
  out_world : World;
  out_events : list Event
}.
Arguments mkOut {World A} _ _ _.
Arguments out_res {World A} _.
Arguments out_world {World A} _.
Arguments out_events {World A} _.

Definition M (World A : Type) : Type := World -> Out World A.

Definition ret {World A} (a : A) : M World A :=
  fun w => mkOut (Done a) w [].

Definition bind {World A B} (m : M World A) (f : A -> M World B) : M World B :=
  fun w =>
    let o := m w in
    match out_res o with
    | Done a =>
        let o' := f a (out_world o) in
        mkOut (out_res o') (out_world o') (out_events o ++ out_events o')%list
    | Panic msg => mkOut (Panic msg) (out_world o) (out_events o)
    | OutOfFuel => mkOut OutOfFuel (out_world o) (out_events o)
    end.

Definition log {World} (e : Event) : M World unit :=
  fun w => mkOut (Done tt) w [e].

Definition panic {World A} (msg : string) : M World A :=
  fun w => mkOut (Panic msg) w [].

Definition out_of_fuel {World A} : M World A :=
  fun w => mkOut OutOfFuel w [].

Declare Scope worker_scope.
Delimit Scope worker_scope with worker.
Notation "x <- c1 ;; c2" := (bind c1 (fun x => c2))
  (at level 100, c1 at next level, right associativity) : worker_scope.
Notation "c1 ;;; c2" := (bind c1 (fun _ => c2))
  (at level 100, right associativity) : worker_scope.

Local Open Scope worker_scope.

(** ** The protocol-tester interface and the cluster-service tester *)

(** [protocols.ProtocolTest]: what the worker holds after
    [protocols.ProtocolHandler].  [RunTest] acts on the world. *)
Record ProtocolTest (World : Type) : Type := mkProtocolTest {
  Arguments_ : gmap string string;
  ShouldResolveHostname : bool;
  Example_ : string;
  RunTest : Test -> string -> TestOptions -> World -> option error * World
}.
Arguments mkProtocolTest {World} _ _ _ _.
Arguments Arguments_ {World} _.
Arguments ShouldResolveHostname {World} _.
Arguments Example_ {World} _.
Arguments RunTest {World} _ _ _ _ _.

Section K8SSvc.
Context {World : Type}.

(** [strconv.Atoi]. *)
Variable strconv_Atoi : string -> Z + error.

(** Building the cluster configuration and client and fetching the
    endpoints of [serviceName] in [namespace]: the address lists of the
    subsets of the endpoints object, or the first error met. *)
Variable k8s_Endpoints :
  string -> string -> World -> (list (list string) + error) * World.

(** [for _, v := range endpoints.Subsets { endpointsCount += len(v.Addresses) }] *)
Fixpoint count_endpoints (subsets : list (list string)) (endpointsCount : Z) : Z :=
  match subsets with
  | [] => endpointsCount
  | v :: rest => count_endpoints rest (wrap64 (endpointsCount + Z.of_nat (length v)))
  end.

Definition K8SSvcTest_RunTest (tst : Test) (target : string) (opts : TestOptions)
    (w : World) : option error * World :=
  let parts := strings_Split1 target "/" "" in
  if negb (length parts =? 2)%nat then
    (Some ("not a valid namespace-name/service-name target provided: " +:+ target), w)
  else
    let namespace := nth 0 parts "" in
    let serviceName := nth 1 parts "" in
    let arg := default "" (Test_Arguments tst !! "min-endpoints") in
    match (if bool_decide (arg = "") then inl 1 else strconv_Atoi arg) with
    | inr err => (Some err, w)
    | inl minEndpoints =>
        match k8s_Endpoints namespace serviceName w with
        | (inr err, w') => (Some err, w')
        | (inl subsets, w') =>
            let endpointsCount := count_endpoints subsets 0 in
            if (endpointsCount <? minEndpoints)%Z then
              (Some ("number of available endpoints (" +:+ pretty endpointsCount
                     +:+ ") is lower than min defined (" +:+ pretty minEndpoints
                     +:+ ")"), w')
            else (None, w')
        end
    end.

(** The tester registered as [k8s-svc]; the usage text is shortened. *)
Definition K8SSvcTest : ProtocolTest World :=
  mkProtocolTest
    {[ "min-endpoints" := "^[0-9]+$" ]}
    false
    "K8SSvc Tester: namespace-name/service-name must run k8s-svc"
    K8SSvcTest_RunTest.
End K8SSvc.

(** ** The collaborators of the worker

    The worker calls into the Go standard library, the redis client and
    the packages [protocols], [test] and [parser].  None of them is among
    the sources at hand apart from the [k8s-svc] tester above, so what the
    worker calls in them is taken as given: one field of [Env] per call. *)

(** The result of [url.Parse]; the worker only reads [Hostname()]. *)
Record url_URL : Type := mkURL { url_Hostname : string }.

Record Env (World : Type) : Type := mkEnv {
  (** [protocols.ProtocolHandler]: the registered tester, nil when the
      type is not registered. *)
  ProtocolHandler : string -> option (ProtocolTest World);
  (** [url.Parse]. *)
  url_Parse : string -> url_URL + error;
  (** [net.LookupIP]. *)
  net_LookupIP : string -> World -> (list IP + error) * World;
  (** [ip.String()]. *)
  IP_String : IP -> string;
  (** [tst.Sanitize()]. *)
  Sanitize : Test -> string;
  (** [time.Sleep]. *)
  time_Sleep : Z -> World -> World;
  (** [time.Now().Unix()]. *)
  time_Now_Unix : World -> Z;
  (** [json.Marshal] of a [map[string]string]; encoding such a map cannot
      fail, so the [err != nil] branch after it in [notify] is dead. *)
  json_Marshal : gmap string string -> string;
  (** [client.RPush(key, value).Result()], reduced to its error. *)
  redis_RPush : redis_Client -> string -> string -> World -> option error * World;
  (** [client.BLPop(0, key).Result()], reduced to the returned slice. *)
  redis_BLPop : redis_Client -> string -> World -> list string * World;
  (** [parser.ParseLine(line, nil)]. *)
  parser_ParseLine : string -> Test + error
}.
Arguments ProtocolHandler {World} _ _.
Arguments url_Parse {World} _ _.
Arguments net_LookupIP {World} _ _ _.
Arguments IP_String {World} _ _.
Arguments Sanitize {World} _ _.
Arguments time_Sleep {World} _ _ _.
Arguments time_Now_Unix {World} _ _.
Arguments json_Marshal {World} _ _.
Arguments redis_RPush {World} _ _ _ _ _.
Arguments redis_BLPop {World} _ _ _ _.
Arguments parser_ParseLine {World} _ _.

(** ** The worker *)

Section Worker.
Context {World : Type}.
Variable E : Env World.

(** [p.verbose(fmt.Sprintf(format, args...))]. *)
Definition verbose (p : workerCmd) (format : string) (args : list Arg) : M World unit :=
  if Verbose p then log (EvPrintf format args) else ret tt.

(** The map [notify] builds before encoding it. *)
Definition notify_msg (test : Test) (result : option error) (now : Z)
    : gmap string string :=
  let msg : gmap string string :=
    {[ "input" := Test_Input test;
       "result" := "passed";
       "target" := Test_Target test;
       "time" := pretty now;
       "type" := Test_Type test ]} in
  match result with
  | Some e => <["error" := e]> (<["result" := "failed"]> msg)
  | None => msg
  end.

Definition now_unix : M World Z :=
  fun w => mkOut (Done (time_Now_Unix E w)) w [].

Definition rpush (r : redis_Client) (key value : string) : M World (option error) :=
  fun w =>
    let '(err, w') := redis_RPush E r key value w in
    mkOut (Done err) w' [EvRPush key value err].

(** [func (p *workerCmd) notify(test test.Test, result error) error] *)
Definition notify (p : workerCmd) (test : Test) (result : option error)
    : M World (option error) :=
  log (EvNotify test result) ;;;
  match _r p with
  | None => ret None
  | Some r =>
      now <- now_unix ;;
      let msg := notify_msg test result now in
      let j := json_Marshal E msg in
      err <- rpush r "overseer.results" j ;;
      match err with
      | Some e =>
          log (EvPrintf "Result addition failed: %s\n" [AStr e]) ;;;
          ret (Some e)
      | None => ret None
      end
  end.

(** The first loop of [runTest]: the addresses kept as targets. *)
Fixpoint select_targets (p : workerCmd) (ips : list IP) : list string :=
  match ips with
  | [] => []
  | ip :: rest =>
      ((if bool_decide (To4 ip <> None)
        then (if IPv4 p then [IP_String E ip] else [])
        else [])
       ++
       (if bool_decide (To16 ip <> None) && bool_decide (To4 ip = None)
        then (if IPv6 p then [IP_String E ip] else [])
        else [])
       ++ select_targets p rest)%list
  end.

(** [tmp.RunTest(tst, target, opts)]; a call through a nil interface
    value is a run-time panic. *)
Definition call_RunTest (tmp : option (ProtocolTest World))
    (tst : Test) (target : string) (opts : TestOptions) : M World (option error) :=
  match tmp with
  | None => panic "runtime error: invalid memory address or nil pointer dereference"
  | Some h =>
      fun w =>
        let '(res, w') := RunTest h tst target opts w in
        mkOut (Done res) w' [EvRunTest tst target opts res]
  end.

Definition sleep (d : Z) : M World unit :=
  fun w => mkOut (Done tt) (time_Sleep E d w) [EvSleep d].

(** [for attempt < maxAttempts { ... }]; one unit of [fuel] per
    iteration. *)
Fixpoint attempt_loop (fuel : nat) (p : workerCmd)
    (tmp : option (ProtocolTest World)) (tst : Test) (target : string)
    (opts : TestOptions) (attempt maxAttempts : Z) (result : option error)
    : M World (option error) :=
  if (attempt <? maxAttempts)%Z then
    match fuel with
    | O => out_of_fuel
    | S fuel' =>
        let attempt := wrap64 (attempt + 1) in
        result <- call_RunTest tmp tst target opts ;;
        match result with
        | None =>
            verbose p "\t[%d/%d] - Test passed.\n" [AInt attempt; AInt maxAttempts] ;;;
            let attempt := wrap64 (maxAttempts + 1) in
            attempt_loop fuel' p tmp tst target opts attempt maxAttempts result
        | Some e =>
            verbose p "\t[%d/%d] Test failed: %s\n"
                    [AInt attempt; AInt maxAttempts; AStr e] ;;;
            verbose p "\t\tSleeping for %s before retrying\n"
                    [ADuration (RetryDelay p)] ;;;
            sleep (RetryDelay p) ;;;
            attempt_loop fuel' p tmp tst target opts attempt maxAttempts result
        end
    end
  else ret result.

(** [maxAttempts] as the body of the target loop sets it. *)
Definition max_attempts (p : workerCmd) : Z :=
  let attempt := 0 in
  if Retry p then RetryCount p else wrap64 (attempt + 1).

(** The copy handed to [notify] for one target. *)
Definition target_copy (tst : Test) (target : string) : Test :=
  let copy := tst in
  let copy := mkTest target (Test_Type copy) (Test_Input copy) (Test_Arguments copy) in
  mkTest (Test_Target copy) (Test_Type copy) (Sanitize E tst) (Test_Arguments copy).

(** The body of [for _, target := range targets]. *)
Definition run_target (fuel : nat) (p : workerCmd)
    (tmp : option (ProtocolTest World)) (tst : Test) (opts : TestOptions)
    (testType testTarget target : string) : M World unit :=
  verbose p "Running '%s' test against %s (%s)\n"
          [AStr testType; AStr testTarget; AStr target] ;;;
  result <- attempt_loop fuel p tmp tst target opts 0 (max_attempts p) None ;;
  notify p (target_copy tst target) result ;;;
  ret tt.

Fixpoint run_targets (fuel : nat) (p : workerCmd)
    (tmp : option (ProtocolTest World)) (tst : Test) (opts : TestOptions)
    (testType testTarget : string) (targets : list string) : M World unit :=
  match targets with
  | [] => ret tt
  | target :: rest =>
      run_target fuel p tmp tst opts testType testTarget target ;;;
      run_targets fuel p tmp tst opts testType testTarget rest
  end.

(** The host that is looked up: the target itself, or the host of the
    URI when the target contains [://]. *)
Definition target_host (testTarget : string) : string + error :=
  if strings_Contains testTarget "://" then
    match url_Parse E testTarget with
    | inr err => inr err
    | inl u => inl (url_Hostname u)
    end
  else inl testTarget.

Definition lookupIP (host : string) : M World (list IP + error) :=
  fun w =>
    let '(r, w') := net_LookupIP E host w in
    mkOut (Done r) w' [EvLookupIP host].

(** [func (p *workerCmd) runTest(tst test.Test, opts test.TestOptions) error] *)
Definition runTest (fuel : nat) (p : workerCmd) (tst : Test) (opts : TestOptions)
    : M World (option error) :=
  let testType := Test_Type tst in
  let testTarget := Test_Target tst in
  let tmp := ProtocolHandler E testType in
  match target_host testTarget with
  | inr err => ret (Some err)
  | inl testTarget =>
      r <- lookupIP testTarget ;;
      match r with
      | inr err =>
          notify p tst (Some ("Failed to resolve name " +:+ testTarget)) ;;;
          log (EvPrintf "WARNING: Failed to resolve %s for %s test!\n"
                        [AStr testTarget; AStr testType]) ;;;
          ret (Some err)
      | inl ips =>
          let targets := select_targets p ips in
          run_targets fuel p tmp tst opts testType testTarget targets ;;;
          ret None
      end
  end.

(** [Execute] stores the client in [p._r] before it enters its loop. *)
Definition connect (p : workerCmd) : workerCmd :=
  mkWorkerCmd (IPv4 p) (IPv6 p) (Retry p) (RetryCount p) (RetryDelay p)
              (RedisHost p) (RedisDB p) (RedisPassword p) (Timeout p) (Verbose p)
              (Some (mkRedisClient (RedisHost p) (RedisPassword p) (RedisDB p))).

Definition blpop (r : redis_Client) (key : string) : M World (list string) :=
  fun w =>
    let '(l, w') := redis_BLPop E r key w in
    mkOut (Done l) w' [].

(** The body of the [for true] loop of [Execute]; nothing in it recovers
    from a panic, so a panic of [runTest] ends the worker. *)
Definition Execute_job (fuel : nat) (p : workerCmd) : M World unit :=
  let opts := mkTestOptions (Verbose p) (Timeout p) in
  match _r p with
  | None => panic "runtime error: invalid memory address or nil pointer dereference"
  | Some r =>
      test <- blpop r "overseer.jobs" ;;
      if (1 <=? length test)%nat then
        match test !! 1%nat with
        | None => panic "runtime error: index out of range [1] with length 1"
        | Some line =>
            match parser_ParseLine E line with
            | inl job => runTest fuel p job opts ;;; ret tt
            | inr err =>
                log (EvPrintf "Error parsing job from queue: %s - %s\n"
                              [AStr line; AStr err])
            end
        end
      else ret tt
  end.
End Worker.

(** ** A small concrete world

    Used to run the worker on explicit jobs: two resolvable names, a probe
    whose successive outcomes are scripted, and a queue that records what
    is pushed.  The collaborators are stand-ins: they fix one possible
    behaviour of the DNS, of the probed hosts, of [Sanitize] and of the
    encoder (which writes ' for the quote character). *)

Record SimWorld : Type := mkSimWorld {
  sim_clock : Z;
  sim_script : list (option error);
  sim_results : list string
}.

(** The scripted probe: each call consumes one outcome; with the script
    used up it passes. *)
Definition sim_RunTest (tst : Test) (target : string) (opts : TestOptions)
    (w : SimWorld) : option error * SimWorld :=
  match sim_script w with
  | [] => (None, w)
  | r :: rest => (r, mkSimWorld (sim_clock w) rest (sim_results w))
  end.

Definition sim_probe : ProtocolTest SimWorld :=
  mkProtocolTest ∅ true "host must run ssh" sim_RunTest.

Definition sim_k8s : ProtocolTest SimWorld :=
  K8SSvcTest (fun s => inl 1) (fun ns svc w => (inl [[ "10.0.0.7" ]], w)).

Definition sim_ProtocolHandler (id : string) : option (ProtocolTest SimWorld) :=
  if bool_decide (id = "ssh") then Some sim_probe
  else if bool_decide (id = "k8s-svc") then Some sim_k8s
  else None.

Definition ip_example_v4 : IP := [Byte.x5d; Byte.xb8; Byte.xd8; Byte.x22].
Definition ip_example_v6 : IP :=
  [Byte.x26; Byte.x06; Byte.x28; Byte.x00; Byte.x02; Byte.x20; Byte.x00; Byte.x01;
   Byte.x02; Byte.x48; Byte.x18; Byte.x93; Byte.x25; Byte.xc8; Byte.x19; Byte.x46].
Definition ip_loopback : IP := [Byte.x7f; Byte.x00; Byte.x00; Byte.x01].

Definition sim_LookupIP (host : string) (w : SimWorld) : (list IP + error) * SimWorld :=
  if bool_decide (host = "example.com") then (inl [ip_example_v4; ip_example_v6], w)
  else if bool_decide (host = "localhost") then (inl [ip_loopback], w)
  else (inr ("lookup " +:+ host +:+ ": no such host"), w).

Definition sim_url_Parse (s : string) : url_URL + error :=
  if bool_decide (s = "https://example.com") then inl (mkURL "example.com")
  else inr ("parse " +:+ s +:+ ": invalid URI").

Definition sim_IP_String (ip : IP) : string :=
  if bool_decide (ip = ip_example_v4) then "93.184.216.34"
  else if bool_decide (ip = ip_example_v6) then "2606:2800:220:1:248:1893:25c8:1946"
  else if bool_decide (ip = ip_loopback) then "127.0.0.1"
  else "?".

(** The part of [s] before the first occurrence of [substr]. *)
Fixpoint before (s substr : string) : string :=
  if String.prefix substr s then EmptyString
  else match s with
       | EmptyString => EmptyString
       | String c s' => String c (before s' substr)
       end.

Definition sim_Sanitize (t : Test) : string :=
  if strings_Contains (Test_Input t) "password"
  then before (Test_Input t) "password" +:+ "password 'CENSORED'"
  else Test_Input t.

Definition sim_json_Marshal (m : gmap string string) : string :=
  "{" +:+
  String.concat ","
    (omap (fun k => (fun v => "'" +:+ k +:+ "':'" +:+ v +:+ "'") <$> m !! k)
          ["error"; "input"; "result"; "target"; "time"; "type"])
  +:+ "}".

Definition sim_RPush (r : redis_Client) (key value : string) (w : SimWorld)
    : option error * SimWorld :=
  (None, mkSimWorld (sim_clock w) (sim_script w) (sim_results w ++ [value])).

Definition sim_Env : Env SimWorld :=
  mkEnv SimWorld
    sim_ProtocolHandler sim_url_Parse sim_LookupIP sim_IP_String sim_Sanitize
    (fun d w => mkSimWorld (sim_clock w + d / 1000000000) (sim_script w) (sim_results w))
    sim_clock
    sim_json_Marshal
    sim_RPush
    (fun r key w => ([key; "localhost must run ssh"], w))
    (fun line => inl (mkTest "localhost" "ssh" line ∅)).

Definition sim_client : redis_Client := mkRedisClient "localhost:6379" "" 0.

(** The defaults of [SetFlags], with a shorter retry count, connected. *)
Definition sim_worker (retry : bool) (count : Z) : workerCmd :=
  mkWorkerCmd true true retry count 5000000000 "localhost:6379" 0 "" 10000000000
              false (Some sim_client).

Definition sim_opts : TestOptions := mkTestOptions false 10000000000.

Definition sim_world (script : list (option error)) : SimWorld :=
  mkSimWorld 1600000000 script [].

(** ** Reading the call log *)

(** The payloads pushed to a queue, in order. *)
Definition payloads (evs : list Event) : list string :=
  omap (fun e => match e with EvRPush _ j _ => Some j | _ => None end) evs.

(** The targets [RunTest] was invoked against, in order. *)
Definition probed (evs : list Event) : list string :=
  omap (fun e => match e with EvRunTest _ t _ _ => Some t | _ => None end) evs.

(** The outcomes of the [RunTest] invocations, in order. *)
Definition outcomes (evs : list Event) : list (option error) :=
  omap (fun e => match e with EvRunTest _ _ _ r => Some r | _ => None end) evs.

(** The number of [time.Sleep] calls. *)
Definition sleeps (evs : list Event) : nat := length (filter is_Sleep evs).

(** What [p.verbose] prints after a passing and after a failing attempt. *)
Definition passed_note (p : workerCmd) (attempt maxAttempts : Z) : list Event :=
  if Verbose p
  then [EvPrintf "\t[%d/%d] - Test passed.\n" [AInt attempt; AInt maxAttempts]]
  else [].

Definition failed_note (p : workerCmd) (attempt maxAttempts : Z) (e : error)
    : list Event :=
  if Verbose p
  then [EvPrintf "\t[%d/%d] Test failed: %s\n" [AInt attempt; AInt maxAttempts; AStr e];
        EvPrintf "\t\tSleeping for %s before retrying\n" [ADuration (RetryDelay p)]]
  else [].

(** ** Terms of the specification *)

(** Address families, as the specification words them: an address with a
    4-byte form is IPv4; one with a 16-byte form and no 4-byte form is
    IPv6. *)
Definition is_IPv4 (ip : IP) : bool := bool_decide (To4 ip <> None).
Definition is_IPv6 (ip : IP) : bool :=
  bool_decide (To16 ip <> None) && bool_decide (To4 ip = None).

(** The family of [ip] is enabled on the worker. *)
Definition enabled (p : workerCmd) (ip : IP) : bool :=
  (is_IPv4 ip && IPv4 p) || (is_IPv6 ip && IPv6 p).

(** The fields of a Result message for an attempt outcome. *)
Definition result_fields (outcome : option error) : gset string :=
  match outcome with
  | None => {[ "input"; "result"; "target"; "time"; "type" ]}
  | Some _ => {[ "error"; "input"; "result"; "target"; "time"; "type" ]}
  end.

Definition result_value (outcome : option error) : string :=
  match outcome with
  | None => "passed"
  | Some _ => "failed"
  end.

(** [m] is a Result message of the wire format for [outcome]. *)
Definition wire_result (m : gmap string string) (outcome : option error) : Prop :=
  dom m = result_fields outcome /\
  m !! "result" = Some (result_value outcome) /\
  m !! "error" = outcome.

Section Terms.
Context {World : Type}.
Variable E : Env World.

(** The calls a job for [tst] with effective targets [targets] may
    make, whatever the probe answers and however far it gets. *)
Inductive job_event (p : workerCmd) (tst : Test) (opts : TestOptions)
    (targets : list string) : Event -> Prop :=
| je_run target res :
    target ∈ targets ->
    job_event p tst opts targets (EvRunTest tst target opts res)
| je_sleep :
    job_event p tst opts targets (EvSleep (RetryDelay p))
| je_notify target res :
    target ∈ targets ->
    job_event p tst opts targets (EvNotify (target_copy E tst target) res)
| je_rpush target res now err :
    target ∈ targets ->
    job_event p tst opts targets
      (EvRPush "overseer.results"
               (json_Marshal E (notify_msg (target_copy E tst target) res now)) err)
| je_printf format args :
    job_event p tst opts targets (EvPrintf format args).

(** The probe passes on its [k]-th invocation after failing on the
    [k-1] before it, the worker sleeping [d] after each failure. *)
Inductive succeeds_on_attempt (h : ProtocolTest World) (tst : Test)
    (target : string) (opts : TestOptions) (d : Z) : nat -> World -> Prop :=
| soa_now w w1 :
    RunTest h tst target opts w = (None, w1) ->
    succeeds_on_attempt h tst target opts d 1 w
| soa_later k w w1 e :
    RunTest h tst target opts w = (Some e, w1) ->
    succeeds_on_attempt h tst target opts d k (time_Sleep E d w1) ->
    succeeds_on_attempt h tst target opts d (S k) w.

(** The probe fails whenever it is invoked. *)
Definition always_fails (h : ProtocolTest World) (tst : Test)
    (target : string) (opts : TestOptions) : Prop :=
  forall w, (RunTest h tst target opts w).1 <> None.
End Terms.


(** ** Terms of the further properties *)

(** The number of occurrences of the byte [c] in [s]. *)
Fixpoint count_char (s : string) (c : ascii) : nat :=
  match s with
  | EmptyString => O
  | String c' s' => ((if Ascii.eqb c' c then 1 else 0) + count_char s' c)%nat
  end.


(** The number of failed attempts among the outcomes of a log. *)
Definition failures (evs : list Event) : nat :=
  length (filter (fun o : option error => is_Some o) (outcomes evs)).

(** The format strings of the two warnings a job may print. *)
Definition resolve_warning : string :=
  "WARNING: Failed to resolve %s for %s test!\n".
Definition push_warning : string := "Result addition failed: %s\n".

(** The free-standing prints of a log are warnings. *)
Definition only_warnings (evs : list Event) : Prop :=
  Forall (fun e =>
            match e with
            | EvPrintf format _ => format = resolve_warning \/ format = push_warning
            | _ => True
            end) evs.

(** ** The entry point: [Execute] *)

(** [subcommands.ExitStatus]. *)
Inductive ExitStatus : Type := ExitSuccess | ExitFailure | ExitUsageError.

Section Startup.
Context {World : Type}.
Variable E : Env World.

(** [client.Ping().Result()], reduced to its error. *)
Variable redis_Ping : redis_Client -> World -> option error * World.

Definition ping (r : redis_Client) : M World (option error) :=
  fun w =>
    let '(err, w') := redis_Ping r w in
    mkOut (Done err) w' [].

(** [for true { ... }]; one unit of [jobs] per iteration, [fuel] for the
    attempt loops of each job. *)
Fixpoint Execute_loop (jobs fuel : nat) (p : workerCmd) : M World unit :=
  match jobs with
  | O => out_of_fuel
  | S jobs' => Execute_job E fuel p ;;; Execute_loop jobs' fuel p
  end.

(** [func (p *workerCmd) Execute(...) subcommands.ExitStatus] *)
Definition Execute (jobs fuel : nat) (p : workerCmd) : M World ExitStatus :=
  let p := connect p in
  match _r p with
  | None => panic "runtime error: invalid memory address or nil pointer dereference"
  | Some r =>
      err <- ping r ;;
      match err with
      | Some e =>
          log (EvPrintf "Redis connection failed: %s\n" [AStr e]) ;;;
          ret ExitFailure
      | None =>
          Execute_loop jobs fuel p ;;;
          ret ExitSuccess
      end
  end.
End Startup.

(** ** Flag setup: [SetFlags] *)

(** What a registered flag holds: its name, its default and its usage
    line. *)
Inductive FlagValue : Type :=
| FBool (b : bool)
| FInt (n : Z)
| FDuration (d : Z)
| FString (s : string).

Record Flag : Type := mkFlag {
  flag_name : string;
  flag_default : FlagValue;
  flag_usage : string
}.

(** [flag.FlagSet], reduced to the flags registered so far, in order. *)
Definition FlagSet : Type := list Flag.

(** [f.Var(value, name, usage)]: registering a name a second time
    panics.  The library puts the name of the flag set, when it has one, in
    front of the text of the panic; the list does not record that name, so
    nothing below depends on the text. *)
Definition flag_Var {World : Type} (f : FlagSet) (name : string)
    (value : FlagValue) (usage : string) : M World FlagSet :=
  if bool_decide (name ∈ flag_name <$> f)
  then panic ("flag redefined: " +:+ name)
  else ret (f ++ [mkFlag name value usage]).

(** Assignments to one field of the worker. *)
Definition set_Verbose (v : bool) (p : workerCmd) : workerCmd :=
  mkWorkerCmd (IPv4 p) (IPv6 p) (Retry p) (RetryCount p) (RetryDelay p)
              (RedisHost p) (RedisDB p) (RedisPassword p) (Timeout p) v (_r p).
Definition set_IPv4 (v : bool) (p : workerCmd) : workerCmd :=
  mkWorkerCmd v (IPv6 p) (Retry p) (RetryCount p) (RetryDelay p)
              (RedisHost p) (RedisDB p) (RedisPassword p) (Timeout p) (Verbose p) (_r p).
Definition set_IPv6 (v : bool) (p : workerCmd) : workerCmd :=
  mkWorkerCmd (IPv4 p) v (Retry p) (RetryCount p) (RetryDelay p)
              (RedisHost p) (RedisDB p) (RedisPassword p) (Timeout p) (Verbose p) (_r p).
Definition set_Timeout (v : Z) (p : workerCmd) : workerCmd :=
  mkWorkerCmd (IPv4 p) (IPv6 p) (Retry p) (RetryCount p) (RetryDelay p)
              (RedisHost p) (RedisDB p) (RedisPassword p) v (Verbose p) (_r p).
Definition set_Retry (v : bool) (p : workerCmd) : workerCmd :=
  mkWorkerCmd (IPv4 p) (IPv6 p) v (RetryCount p) (RetryDelay p)
              (RedisHost p) (RedisDB p) (RedisPassword p) (Timeout p) (Verbose p) (_r p).
Definition set_RetryCount (v : Z) (p : workerCmd) : workerCmd :=
  mkWorkerCmd (IPv4 p) (IPv6 p) (Retry p) v (RetryDelay p)
              (RedisHost p) (RedisDB p) (RedisPassword p) (Timeout p) (Verbose p) (_r p).
Definition set_RetryDelay (v : Z) (p : workerCmd) : workerCmd :=
  mkWorkerCmd (IPv4 p) (IPv6 p) (Retry p) (RetryCount p) v
              (RedisHost p) (RedisDB p) (RedisPassword p) (Timeout p) (Verbose p) (_r p).
Definition set_RedisHost (v : string) (p : workerCmd) : workerCmd :=
  mkWorkerCmd (IPv4 p) (IPv6 p) (Retry p) (RetryCount p) (RetryDelay p)
              v (RedisDB p) (RedisPassword p) (Timeout p) (Verbose p) (_r p).
Definition set_RedisDB (v : Z) (p : workerCmd) : workerCmd :=
  mkWorkerCmd (IPv4 p) (IPv6 p) (Retry p) (RetryCount p) (RetryDelay p)
              (RedisHost p) v (RedisPassword p) (Timeout p) (Verbose p) (_r p).
Definition set_RedisPassword (v : string) (p : workerCmd) : workerCmd :=
  mkWorkerCmd (IPv4 p) (IPv6 p) (Retry p) (RetryCount p) (RetryDelay p)
              (RedisHost p) (RedisDB p) v (Timeout p) (Verbose p) (_r p).

(** The values [SetFlags] starts from: [var defaults workerCmd] with the
    ten assignments that follow it. *)
Definition builtin_defaults : workerCmd :=
  mkWorkerCmd true true true 5 5000000000 "localhost:6379" 0 "" 10000000000
              false None.

Section Flags.
Context {World : Type}.

(** [os.Getenv]. *)
Variable os_Getenv : string -> World -> string.
(** [ioutil.ReadFile]. *)
Variable ioutil_ReadFile : string -> World -> string + error.
(** [json.Unmarshal(cfg, &defaults)]: the structure as the decoder leaves
    it, which on an error may already hold some of the file's values, and
    the error. *)
Variable json_Unmarshal : string -> workerCmd -> workerCmd * option error.

(** The first half of [SetFlags]: the defaults, replaced by those of the
    configuration file named by [OVERSEER] when there is one. *)
Definition load_defaults : M World workerCmd :=
  fun w =>
    let defaults := builtin_defaults in
    if (0 <? String.length (os_Getenv "OVERSEER" w))%nat then
      match ioutil_ReadFile (os_Getenv "OVERSEER" w) w with
      | inl cfg =>
          let '(defaults, err) := json_Unmarshal cfg defaults in
          match err with
          | Some e =>
              mkOut (Done defaults) w
                    [EvPrintf "WARNING: Error loading overseer.json - %s\n" [AStr e]]
          | None => mkOut (Done defaults) w []
          end
      | inr e =>
          mkOut (Done defaults) w
                [EvPrintf "WARNING: Failed to read configuration-file - %s\n" [AStr e]]
      end
    else mkOut (Done defaults) w [].

(** [func (p *workerCmd) SetFlags(f *flag.FlagSet)]: the worker and the
    flag set as the call leaves them. *)
Definition SetFlags (p : workerCmd) (f : FlagSet) : M World (workerCmd * FlagSet) :=
  defaults <- load_defaults ;;
  let p := set_Verbose (Verbose defaults) p in
  f <- flag_Var f "verbose" (FBool (Verbose defaults)) "Show more output." ;;
  let p := set_IPv4 (IPv4 defaults) p in
  f <- flag_Var f "4" (FBool (IPv4 defaults)) "Enable IPv4 tests." ;;
  let p := set_IPv6 (IPv6 defaults) p in
  f <- flag_Var f "6" (FBool (IPv6 defaults)) "Enable IPv6 tests." ;;
  let p := set_Timeout (Timeout defaults) p in
  f <- flag_Var f "timeout" (FDuration (Timeout defaults))
         "The global timeout for all tests, in seconds." ;;
  let p := set_Retry (Retry defaults) p in
  f <- flag_Var f "retry" (FBool (Retry defaults))
         "Should failing tests be retried a few times before raising a notification." ;;
  let p := set_RetryCount (RetryCount defaults) p in
  f <- flag_Var f "retry-count" (FInt (RetryCount defaults))
         "How many times to retry a test, before regarding it as a failure." ;;
  let p := set_RetryDelay (RetryDelay defaults) p in
  f <- flag_Var f "retry-delay" (FDuration (RetryDelay defaults))
         "The time to sleep between failing tests." ;;
  let p := set_RedisHost (RedisHost defaults) p in
  f <- flag_Var f "redis-host" (FString (RedisHost defaults))
         "Specify the address of the redis queue." ;;
  let p := set_RedisDB (RedisDB defaults) p in
  f <- flag_Var f "redis-db" (FInt (RedisDB defaults))
         "Specify the database-number for redis." ;;
  let p := set_RedisPassword (RedisPassword defaults) p in
  f <- flag_Var f "redis-pass" (FString (RedisPassword defaults))
         "Specify the password for the redis queue." ;;
  ret (p, f).
End Flags.

(** The names [SetFlags] registers, in order. *)
Definition worker_flag_names : list string :=
  ["verbose"; "4"; "6"; "timeout"; "retry"; "retry-count"; "retry-delay";
   "redis-host"; "redis-db"; "redis-pass"].

(** The calls the attempt loop for [target] may make. *)
Definition attempt_event (p : workerCmd) (tst : Test) (target : string)
    (opts : TestOptions) (e : Event) : Prop :=
  match e with
  | EvRunTest t tg o _ => t = tst /\ tg = target /\ o = opts
  | EvSleep d => d = RetryDelay p
  | EvPrintf _ _ => Verbose p = true
  | _ => False
  end.

(** A push is a Result message in the wire format, on the results queue. *)
Definition result_push {World : Type} (E : Env World) (e : Event) : Prop :=
  match e with
  | EvRPush key j _ =>
      key = "overseer.results" /\
      exists t outcome now,
        j = json_Marshal E (notify_msg t outcome now) /\
        wire_result (notify_msg t outcome now) outcome
  | _ => True
  end.

(** The concrete world with a queue that answers a pop with the key
    alone. *)
Definition sim_Env_short_pop : Env SimWorld :=
  mkEnv SimWorld
    sim_ProtocolHandler sim_url_Parse sim_LookupIP sim_IP_String sim_Sanitize
    (time_Sleep sim_Env) sim_clock sim_json_Marshal sim_RPush
    (fun r key w => ([key], w))
    (parser_ParseLine sim_Env).

(** The error of the cluster-service tester for a target that is not of
    the form namespace/service. *)
Definition not_a_service (target : string) : error :=
  "not a valid namespace-name/service-name target provided: " +:+ target.

(** Every probe invocation of a log was rejected that way. *)
Definition all_rejected (evs : list Event) : Prop :=
  Forall (fun e =>
            match e with
            | EvRunTest _ target _ r => r = Some (not_a_service target)
            | _ => True
            end) evs.

(** The worker with the ten configurable fields of [d] and the client of
    [p]. *)
Definition worker_of (d p : workerCmd) : workerCmd :=
  mkWorkerCmd (IPv4 d) (IPv6 d) (Retry d) (RetryCount d) (RetryDelay d)
              (RedisHost d) (RedisDB d) (RedisPassword d) (Timeout d) (Verbose d)
              (_r p).

(** The ten flags of the worker, with the fields of [d] as defaults. *)
Definition flags_of (d : workerCmd) : list Flag :=
  [mkFlag "verbose" (FBool (Verbose d)) "Show more output.";
   mkFlag "4" (FBool (IPv4 d)) "Enable IPv4 tests.";
   mkFlag "6" (FBool (IPv6 d)) "Enable IPv6 tests.";
   mkFlag "timeout" (FDuration (Timeout d))
          "The global timeout for all tests, in seconds.";
   mkFlag "retry" (FBool (Retry d))
          "Should failing tests be retried a few times before raising a notification.";
   mkFlag "retry-count" (FInt (RetryCount d))
          "How many times to retry a test, before regarding it as a failure.";
   mkFlag "retry-delay" (FDuration (RetryDelay d))
          "The time to sleep between failing tests.";
   mkFlag "redis-host" (FString (RedisHost d))
          "Specify the address of the redis queue.";
   mkFlag "redis-db" (FInt (RedisDB d)) "Specify the database-number for redis.";
   mkFlag "redis-pass" (FString (RedisPassword d))
          "Specify the password for the redis queue."].

(** An invocation of a probe by the job of [tst] in the world [w]: on
    [tst] itself, with the options [opts], against the printed form of an
    address that the lookup of the host of [tst] returned in [w] and whose
    family is enabled. *)
Definition probe_of {World : Type} (E : Env World) (p : workerCmd) (tst : Test)
    (opts : TestOptions) (w : World) (e : Event) : Prop :=
  match e with
  | EvRunTest t target o _ =>
      t = tst /\ o = opts /\
      exists host ips ip,
        target_host E (Test_Target tst) = inl host /\
        (net_LookupIP E host w).1 = inl ips /\
        ip ∈ ips /\ enabled p ip = true /\ target = IP_String E ip
  | _ => True
  end.

(** An invocation of a probe as one iteration of the worker loop makes it,
    [popped] being the slice BLPop returned and [w] the world it left: on the
    Test the parser produced from the second element of [popped], with the
    options copied from the worker. *)
Definition probe_of_job {World : Type} (E : Env World) (p : workerCmd)
    (popped : list string) (w : World) (e : Event) : Prop :=
  match e with
  | EvRunTest t _ _ _ =>
      (exists line, popped !! 1%nat = Some line /\ parser_ParseLine E line = inl t) /\
      probe_of E p t (mkTestOptions (Verbose p) (Timeout p)) w e
  | _ => True
  end.

(** The part of a log that belongs to one target: every probe in it was
    run against [target], there are at most [N] of them and at most [N]
    sleeps, and it holds one notification, about the copy for [target]. *)
Definition bounded_segment {World : Type} (E : Env World) (tst : Test) (N : nat)
    (target : string) (seg : list Event) : Prop :=
  probed seg = replicate (length (probed seg)) target /\
  (length (probed seg) <= N)%nat /\
  (sleeps seg <= N)%nat /\
  exists result, filter is_Notify seg = [EvNotify (target_copy E tst target) result].

(** * Properties *)

(** ** Wrap-around *)

Lemma wrap64_id (z : Z) : min_int <= z <= max_int -> wrap64 z = z.
Proof.
  unfold wrap64, min_int, max_int. intros H.
  rewrite Z.mod_small by lia. lia.
Qed.

Lemma wrap64_max_int_succ : wrap64 (max_int + 1) = min_int.
Proof. reflexivity. Qed.

(** ** Sequencing *)

Section Sequencing.
Context {World : Type}.

Lemma out_eta {A} (o : Out World A) :
  mkOut (out_res o) (out_world o) (out_events o) = o.
Proof. by destruct o. Qed.

Lemma bind_Done {A B} (m : M World A) (f : A -> M World B) w a w1 e1 :
  m w = mkOut (Done a) w1 e1 ->
  bind m f w =
  mkOut (out_res (f a w1)) (out_world (f a w1)) (e1 ++ out_events (f a w1)).
Proof. unfold bind. by intros ->. Qed.

Lemma bind_Done_res {A B} (m : M World A) (f : A -> M World B) w a :
  out_res (m w) = Done a ->
  bind m f w =
  mkOut (out_res (f a (out_world (m w)))) (out_world (f a (out_world (m w))))
        (out_events (m w) ++ out_events (f a (out_world (m w)))).
Proof. unfold bind. by intros ->. Qed.

Lemma bind_Panic {A B} (m : M World A) (f : A -> M World B) w msg :
  out_res (m w) = Panic msg ->
  bind m f w = mkOut (Panic msg) (out_world (m w)) (out_events (m w)).
Proof. unfold bind. by intros ->. Qed.

Lemma bind_OutOfFuel {A B} (m : M World A) (f : A -> M World B) w :
  out_res (m w) = OutOfFuel ->
  bind m f w = mkOut OutOfFuel (out_world (m w)) (out_events (m w)).
Proof. unfold bind. by intros ->. Qed.

Lemma bind_events_Forall {A B} (P : Event -> Prop)
    (m : M World A) (f : A -> M World B) w :
  Forall P (out_events (m w)) ->
  (forall a w', Forall P (out_events (f a w'))) ->
  Forall P (out_events (bind m f w)).
Proof.
  intros Hm Hf. unfold bind.
  destruct (out_res (m w)); simpl; [|done..].
  apply Forall_app. split; [done | apply Hf].
Qed.

Lemma ret_events_Forall {A} (P : Event -> Prop) (a : A) (w : World) :
  Forall P (out_events (ret a w)).
Proof. constructor. Qed.

Lemma log_events_Forall (P : Event -> Prop) (e : Event) (w : World) :
  P e -> Forall P (out_events (log e w)).
Proof. intros H. simpl. by repeat constructor. Qed.
End Sequencing.


Lemma payloads_app l1 l2 : payloads (l1 ++ l2) = payloads l1 ++ payloads l2.
Proof. apply omap_app. Qed.
Lemma probed_app l1 l2 : probed (l1 ++ l2) = probed l1 ++ probed l2.
Proof. apply omap_app. Qed.
Lemma outcomes_app l1 l2 : outcomes (l1 ++ l2) = outcomes l1 ++ outcomes l2.
Proof. apply omap_app. Qed.
Lemma sleeps_app l1 l2 : sleeps (l1 ++ l2) = (sleeps l1 + sleeps l2)%nat.
Proof. unfold sleeps. by rewrite filter_app, length_app. Qed.

(** ** What a job may do: a classification of its calls *)

Section Safety.
Context {World : Type}.
Variable E : Env World.


Lemma job_event_mono p tst opts ts1 ts2 e :
  ts1 ⊆ ts2 -> job_event E p tst opts ts1 e -> job_event E p tst opts ts2 e.
Proof. intros Hsub He. destruct He; constructor; auto. Qed.

Lemma verbose_events_Forall (P : Event -> Prop) p format args (w : World) :
  P (EvPrintf format args) ->
  Forall P (out_events (verbose p format args w)).
Proof.
  intros H. unfold verbose. destruct (Verbose p).
  - by apply log_events_Forall.
  - constructor.
Qed.

(** The exact run of [notify] on a connected worker. *)
Lemma notify_connected p r test result w :
  _r p = Some r ->
  let j := json_Marshal E (notify_msg test result (time_Now_Unix E w)) in
  let push := redis_RPush E r "overseer.results" j w in
  notify E p test result w =
  mkOut (Done push.1) push.2
        (EvNotify test result :: EvRPush "overseer.results" j push.1 ::
         match push.1 with
         | Some e => [EvPrintf "Result addition failed: %s\n" [AStr e]]
         | None => []
         end).
Proof.
  intros Hr. unfold notify, bind, log, now_unix, rpush, ret. simpl.
  rewrite Hr. simpl.
  destruct (redis_RPush E r _ _ w) as [[e|] w']; reflexivity.
Qed.

(** Without a client [notify] does nothing. *)
Lemma notify_disconnected p test result w :
  _r p = None ->
  notify E p test result w = mkOut (Done None) w [EvNotify test result].
Proof.
  intros Hr. unfold notify, bind, log, ret. simpl. by rewrite Hr.
Qed.

Lemma notify_returns p test result w :
  exists err, out_res (notify E p test result w) = Done err.
Proof.
  destruct (_r p) as [r|] eqn:Hr.
  - rewrite (notify_connected _ _ _ _ _ Hr). simpl. eauto.
  - rewrite (notify_disconnected _ _ _ _ Hr). simpl. eauto.
Qed.

Lemma notify_events p tst opts targets target result w :
  target ∈ targets ->
  Forall (job_event E p tst opts targets)
         (out_events (notify E p (target_copy E tst target) result w)).
Proof.
  intros Hin. destruct (_r p) as [r|] eqn:Hr.
  - rewrite (notify_connected _ _ _ _ _ Hr). simpl.
    repeat constructor; try done.
    destruct (redis_RPush _ _ _ _ _).1; repeat constructor.
  - rewrite (notify_disconnected _ _ _ _ Hr). simpl.
    repeat constructor; done.
Qed.

Lemma call_RunTest_events p (tmp : option (ProtocolTest World)) tst opts targets
    target (w : World) :
  target ∈ targets ->
  Forall (job_event E p tst opts targets)
         (out_events (call_RunTest tmp tst target opts w)).
Proof.
  intros Hin. unfold call_RunTest. destruct tmp as [h|]; simpl.
  - destruct (RunTest h tst target opts w). simpl.
    repeat constructor; done.
  - constructor.
Qed.

Lemma attempt_loop_events fuel p tmp tst opts targets target :
  target ∈ targets ->
  forall attempt maxAttempts result w,
  Forall (job_event E p tst opts targets)
         (out_events
            (attempt_loop E fuel p tmp tst target opts attempt maxAttempts result w)).
Proof.
  intros Hin. induction fuel as [|fuel IH]; intros attempt maxAttempts result w;
    simpl; destruct (attempt <? maxAttempts); try constructor.
  apply bind_events_Forall; [by apply call_RunTest_events|].
  intros [e|] w'.
  - repeat (apply bind_events_Forall;
            [first [apply verbose_events_Forall; constructor
                   | simpl; repeat constructor] | intros _ ?]).
    apply IH.
  - apply bind_events_Forall; [apply verbose_events_Forall; constructor|].
    intros _ ?. apply IH.
Qed.

Lemma run_target_events fuel p tmp tst opts targets testType testTarget target w :
  target ∈ targets ->
  Forall (job_event E p tst opts targets)
         (out_events (run_target E fuel p tmp tst opts testType testTarget target w)).
Proof.
  intros Hin. unfold run_target.
  apply bind_events_Forall; [apply verbose_events_Forall; constructor|].
  intros _ w1.
  apply bind_events_Forall; [by apply attempt_loop_events|].
  intros result w2.
  apply bind_events_Forall; [by apply notify_events|].
  intros; constructor.
Qed.

Lemma run_targets_events fuel p tmp tst opts testType testTarget targets w :
  Forall (job_event E p tst opts targets)
         (out_events (run_targets E fuel p tmp tst opts testType testTarget targets w)).
Proof.
  revert w. induction targets as [|target rest IH]; intros w; simpl.
  - constructor.
  - apply bind_events_Forall.
    + apply run_target_events. set_solver.
    + intros _ w'. eapply Forall_impl; [apply IH|].
      intros e He. eapply job_event_mono; [|exact He]. set_solver.
Qed.
End Safety.

(** ** The attempt loop, step by step *)

Section Attempts.
Context {World : Type}.
Variable E : Env World.
Variable p : workerCmd.
Variable h : ProtocolTest World.
Variable tst : Test.
Variable target : string.
Variable opts : TestOptions.

Lemma attempt_loop_exit fuel attempt maxAttempts result w :
  maxAttempts <= attempt ->
  attempt_loop E fuel p (Some h) tst target opts attempt maxAttempts result w =
  mkOut (Done result) w [].
Proof.
  intros Hle. destruct fuel; simpl;
    (destruct (Z.ltb_spec attempt maxAttempts); [lia | reflexivity]).
Qed.

Lemma attempt_loop_pass fuel attempt maxAttempts result w w1 :
  attempt < maxAttempts ->
  RunTest h tst target opts w = (None, w1) ->
  attempt_loop E (S fuel) p (Some h) tst target opts attempt maxAttempts result w =
  let o := attempt_loop E fuel p (Some h) tst target opts
                        (wrap64 (maxAttempts + 1)) maxAttempts None w1 in
  mkOut (out_res o) (out_world o)
        (EvRunTest tst target opts None ::
         passed_note p (wrap64 (attempt + 1)) maxAttempts ++ out_events o).
Proof.
  intros Hlt Hrun. simpl.
  destruct (Z.ltb_spec attempt maxAttempts); [|lia].
  unfold bind at 1, call_RunTest. rewrite Hrun. simpl.
  unfold passed_note, verbose, bind, log, ret.
  destruct (Verbose p); reflexivity.
Qed.

Lemma attempt_loop_fail fuel attempt maxAttempts result w w1 e :
  attempt < maxAttempts ->
  RunTest h tst target opts w = (Some e, w1) ->
  attempt_loop E (S fuel) p (Some h) tst target opts attempt maxAttempts result w =
  let o := attempt_loop E fuel p (Some h) tst target opts
                        (wrap64 (attempt + 1)) maxAttempts (Some e)
                        (time_Sleep E (RetryDelay p) w1) in
  mkOut (out_res o) (out_world o)
        (EvRunTest tst target opts (Some e) ::
         failed_note p (wrap64 (attempt + 1)) maxAttempts e ++
         EvSleep (RetryDelay p) :: out_events o).
Proof.
  intros Hlt Hrun. simpl.
  destruct (Z.ltb_spec attempt maxAttempts); [|lia].
  unfold bind at 1, call_RunTest. rewrite Hrun. simpl.
  unfold failed_note, verbose, sleep, bind, log, ret.
  destruct (Verbose p); simpl; rewrite <- ?app_assoc; reflexivity.
Qed.

Lemma attempt_loop_no_fuel attempt maxAttempts result w :
  attempt < maxAttempts ->
  attempt_loop E 0 p (Some h) tst target opts attempt maxAttempts result w =
  mkOut OutOfFuel w [].
Proof.
  intros Hlt. simpl. destruct (Z.ltb_spec attempt maxAttempts); [done | lia].
Qed.

(** The notes are prints: they are neither probes, sleeps nor pushes. *)
Lemma passed_note_silent a m :
  probed (passed_note p a m) = [] /\ outcomes (passed_note p a m) = [] /\
  sleeps (passed_note p a m) = 0%nat /\ payloads (passed_note p a m) = [].
Proof. unfold passed_note. destruct (Verbose p); done. Qed.

Lemma failed_note_silent a m e :
  probed (failed_note p a m e) = [] /\ outcomes (failed_note p a m e) = [] /\
  sleeps (failed_note p a m e) = 0%nat /\ payloads (failed_note p a m e) = [].
Proof. unfold failed_note. destruct (Verbose p); done. Qed.
End Attempts.

(** ** The attempt loop, as a whole *)

Section AttemptRuns.
Context {World : Type}.
Variable E : Env World.
Variable p : workerCmd.
Variable h : ProtocolTest World.
Variable tst : Test.
Variable target : string.
Variable opts : TestOptions.

(** Below [max_int] the loop ends, whatever the probe answers: it runs
    the probe against [target] only, pushes nothing, and runs the probe
    at least once when an attempt is due. *)
Lemma attempt_loop_terminates maxAttempts :
  maxAttempts < max_int ->
  forall (n : nat) attempt result w fuel,
  0 <= attempt ->
  maxAttempts - attempt <= Z.of_nat n ->
  (n <= fuel)%nat ->
  exists r w' evs,
    attempt_loop E fuel p (Some h) tst target opts attempt maxAttempts result w
    = mkOut (Done r) w' evs /\
    payloads evs = [] /\
    Forall (eq target) (probed evs) /\
    (attempt < maxAttempts -> probed evs <> []).
Proof.
  intros Hmax. induction n as [|n IH]; intros attempt result w fuel Hge Hn Hfuel.
  - exists result, w, []. rewrite attempt_loop_exit by lia.
    repeat split; try done. lia.
  - destruct (Z.le_gt_cases maxAttempts attempt) as [Hle|Hlt].
    { exists result, w, []. rewrite attempt_loop_exit by lia.
      repeat split; try done. lia. }
    destruct fuel as [|fuel]; [lia|].
    destruct (RunTest h tst target opts w) as [[e|] w1] eqn:Hrun.
    + rewrite (attempt_loop_fail _ _ _ _ _ _ _ _ _ _ _ _ _ Hlt Hrun).
      rewrite wrap64_id by (unfold min_int, max_int in *; lia).
      destruct (IH (attempt + 1) (Some e) (time_Sleep E (RetryDelay p) w1) fuel)
        as (r & w' & evs & Heq & Hpay & Hprobed & _); [lia..|].
      rewrite Heq. simpl. eexists _, _, _. split; [reflexivity|].
      destruct (failed_note_silent p (attempt + 1) maxAttempts e)
        as (Hn1 & _ & _ & Hn4).
      repeat split.
      * change (payloads (?x :: ?l)) with (payloads l).
        rewrite payloads_app, Hn4. simpl. exact Hpay.
      * change (probed (EvRunTest tst target opts ?r :: ?l)) with (target :: probed l).
        rewrite probed_app, Hn1. simpl. by constructor.
      * done.
    + rewrite (attempt_loop_pass _ _ _ _ _ _ _ _ _ _ _ _ Hlt Hrun).
      rewrite (wrap64_id (maxAttempts + 1)) by (unfold min_int, max_int in *; lia).
      rewrite attempt_loop_exit by lia. simpl.
      eexists _, _, _. split; [reflexivity|].
      destruct (passed_note_silent p (wrap64 (attempt + 1)) maxAttempts)
        as (Hn1 & _ & _ & Hn4).
      rewrite app_nil_r. repeat split.
      * change (payloads (?x :: ?l)) with (payloads l). exact Hn4.
      * change (probed (EvRunTest tst target opts ?r :: ?l)) with (target :: probed l).
        rewrite Hn1. by repeat constructor.
      * done.
Qed.

(** A probe that always fails is run for every attempt, and every
    attempt, the last one included, is followed by a sleep. *)
Lemma attempt_loop_all_fail maxAttempts :
  always_fails h tst target opts ->
  maxAttempts <= max_int ->
  forall (n : nat) attempt result w fuel,
  0 <= attempt ->
  Z.of_nat n = maxAttempts - attempt ->
  (n <= fuel)%nat ->
  exists r w' evs,
    attempt_loop E fuel p (Some h) tst target opts attempt maxAttempts result w
    = mkOut (Done r) w' evs /\
    length (outcomes evs) = n /\
    length (probed evs) = n /\
    sleeps evs = n /\
    payloads evs = [] /\
    r = default result (last (outcomes evs)) /\
    Forall (fun o => o <> None) (outcomes evs) /\
    (0 < n -> last evs = Some (EvSleep (RetryDelay p)))%nat.
Proof.
  intros Hfails Hmax. induction n as [|n IH]; intros attempt result w fuel Hge Hn Hfuel.
  - exists result, w, []. rewrite attempt_loop_exit by lia.
    repeat split; try done. lia.
  - destruct fuel as [|fuel]; [lia|].
    destruct (RunTest h tst target opts w) as [[e|] w1] eqn:Hrun.
    2: { specialize (Hfails w). rewrite Hrun in Hfails. done. }
    assert (Hlt : attempt < maxAttempts) by lia.
    rewrite (attempt_loop_fail _ _ _ _ _ _ _ _ _ _ _ _ _ Hlt Hrun).
    rewrite wrap64_id by (unfold min_int, max_int in *; lia).
    destruct (IH (attempt + 1) (Some e) (time_Sleep E (RetryDelay p) w1) fuel)
      as (r & w' & evs & Heq & Hlen & Hlenp & Hsl & Hpay & Hr & Hall & Hlast);
      [lia..|].
    rewrite Heq. cbn [out_res out_world out_events].
    eexists _, _, _. split; [reflexivity|].
    destruct (failed_note_silent p (attempt + 1) maxAttempts e)
      as (Hn1 & Hn2 & Hn3 & Hn4).
    change (outcomes (EvRunTest tst target opts (Some e) :: ?l))
      with (Some e :: outcomes l).
    change (probed (EvRunTest tst target opts (Some e) :: ?l))
      with (target :: probed l).
    change (sleeps (EvRunTest tst target opts (Some e) :: ?l)) with (sleeps l).
    change (payloads (EvRunTest tst target opts (Some e) :: ?l)) with (payloads l).
    rewrite outcomes_app, probed_app, sleeps_app, payloads_app, Hn1, Hn2, Hn3, Hn4.
    cbn [app Nat.add].
    change (outcomes (EvSleep ?d :: ?l)) with (outcomes l).
    change (probed (EvSleep ?d :: ?l)) with (probed l).
    change (sleeps (EvSleep ?d :: ?l)) with (S (sleeps l)).
    change (payloads (EvSleep ?d :: ?l)) with (payloads l).
    split; [|split; [|split; [|split; [|split; [|split]]]]].
    + cbn [length]. by rewrite Hlen.
    + cbn [length]. by rewrite Hlenp.
    + by rewrite Hsl.
    + exact Hpay.
    + rewrite Hr, last_cons. by destruct (last (outcomes evs)).
    + by constructor.
    + intros _. rewrite app_comm_cons, last_app, last_cons.
      destruct n as [|n].
      * rewrite attempt_loop_exit in Heq by lia. by inversion Heq.
      * by rewrite Hlast by lia.
Qed.

(** Below [max_int], a probe that passes on its [k]-th invocation is
    run [k] times: the loop ends with the pass. *)
Lemma attempt_loop_succeeds maxAttempts :
  maxAttempts < max_int ->
  forall (k : nat) w,
  succeeds_on_attempt E h tst target opts (RetryDelay p) k w ->
  forall attempt result fuel,
  0 <= attempt ->
  attempt + Z.of_nat k <= maxAttempts ->
  (k <= fuel)%nat ->
  exists w' evs,
    attempt_loop E fuel p (Some h) tst target opts attempt maxAttempts result w
    = mkOut (Done None) w' evs /\
    length (probed evs) = k /\
    S (sleeps evs) = k /\
    last (outcomes evs) = Some None /\
    payloads evs = [].
Proof.
  intros Hmax k w Hk.
  induction Hk as [w w1 Hrun | k w w1 e Hrun Hk IH];
    intros attempt result fuel Hge Hle Hfuel;
    (destruct fuel as [|fuel]; [lia|]).
  - assert (Hlt : attempt < maxAttempts) by lia.
    rewrite (attempt_loop_pass _ _ _ _ _ _ _ _ _ _ _ _ Hlt Hrun).
    rewrite (wrap64_id (maxAttempts + 1)) by (unfold min_int, max_int in *; lia).
    rewrite attempt_loop_exit by lia. simpl.
    eexists _, _. split; [reflexivity|]. rewrite app_nil_r.
    destruct (passed_note_silent p (wrap64 (attempt + 1)) maxAttempts)
      as (Hn1 & Hn2 & Hn3 & Hn4).
    change (probed (EvRunTest tst target opts ?r :: ?l)) with (target :: probed l).
    change (outcomes (EvRunTest tst target opts ?r :: ?l)) with (r :: outcomes l).
    change (sleeps (EvRunTest tst target opts ?r :: ?l)) with (sleeps l).
    change (payloads (EvRunTest tst target opts ?r :: ?l)) with (payloads l).
    rewrite Hn1, Hn2, Hn3, Hn4. done.
  - assert (1 <= k)%nat by (destruct Hk; lia).
    assert (Hlt : attempt < maxAttempts) by lia.
    rewrite (attempt_loop_fail _ _ _ _ _ _ _ _ _ _ _ _ _ Hlt Hrun).
    rewrite wrap64_id by (unfold min_int, max_int in *; lia).
    destruct (IH (attempt + 1) (Some e) fuel)
      as (w' & evs & Heq & Hlen & Hsl & Hlast & Hpay); [lia..|].
    rewrite Heq. simpl. eexists _, _. split; [reflexivity|].
    destruct (failed_note_silent p (attempt + 1) maxAttempts e)
      as (Hn1 & Hn2 & Hn3 & Hn4).
    change (probed (EvRunTest tst target opts ?r :: ?l)) with (target :: probed l).
    change (outcomes (EvRunTest tst target opts ?r :: ?l)) with (r :: outcomes l).
    change (sleeps (EvRunTest tst target opts ?r :: ?l)) with (sleeps l).
    change (payloads (EvRunTest tst target opts ?r :: ?l)) with (payloads l).
    rewrite probed_app, outcomes_app, sleeps_app, payloads_app, Hn1, Hn2, Hn3, Hn4.
    simpl.
    change (probed (EvSleep ?d :: ?l)) with (probed l).
    change (outcomes (EvSleep ?d :: ?l)) with (outcomes l).
    change (sleeps (EvSleep ?d :: ?l)) with (S (sleeps l)).
    change (payloads (EvSleep ?d :: ?l)) with (payloads l).
    repeat split.
    + simpl. by rewrite Hlen.
    + by rewrite Hsl.
    + destruct (outcomes evs) as [|o os]; [done|]. by rewrite last_cons, Hlast.
    + done.
Qed.
End AttemptRuns.

(** ** One job *)

Section Job.
Context {World : Type}.
Variable E : Env World.

Lemma filter_all_false {A} (f : A -> bool) (l : list A) :
  (forall x, x ∈ l -> f x = false) -> filter f l = [].
Proof.
  induction l as [|a l IH]; intros H; [done|].
  rewrite filter_cons_False.
  - apply IH. intros x Hx. apply H. set_solver.
  - rewrite H; [by intros [] | set_solver].
Qed.

(** The first loop keeps exactly the addresses of an enabled family. *)
Lemma select_targets_enabled p ips :
  select_targets E p ips = IP_String E <$> filter (enabled p) ips.
Proof.
  induction ips as [|ip rest IH]; [done|].
  simpl. rewrite IH. rewrite filter_cons.
  unfold enabled, is_IPv4, is_IPv6.
  destruct (To4 ip) as [v4|], (To16 ip) as [v6|], (IPv4 p), (IPv6 p);
    simpl; reflexivity.
Qed.

Lemma notify_msg_wire test outcome now :
  wire_result (notify_msg test outcome now) outcome.
Proof.
  unfold wire_result, notify_msg, result_fields, result_value.
  destruct outcome as [e|]; (split; [|split]).
  - rewrite !dom_insert_L, dom_singleton_L. set_solver.
  - by simplify_map_eq.
  - by simplify_map_eq.
  - rewrite !dom_insert_L, dom_singleton_L. set_solver.
  - by simplify_map_eq.
  - by simplify_map_eq.
Qed.

Lemma notify_msg_fields test outcome now :
  notify_msg test outcome now !! "input" = Some (Test_Input test) /\
  notify_msg test outcome now !! "target" = Some (Test_Target test) /\
  notify_msg test outcome now !! "type" = Some (Test_Type test) /\
  notify_msg test outcome now !! "time" = Some (pretty now).
Proof.
  unfold notify_msg. destruct outcome; repeat split; by simplify_map_eq.
Qed.

Lemma notify_payloads p r test result w :
  _r p = Some r ->
  payloads (out_events (notify E p test result w)) =
  [json_Marshal E (notify_msg test result (time_Now_Unix E w))].
Proof.
  intros Hr. rewrite (notify_connected E _ _ _ _ _ Hr). simpl.
  by destruct (redis_RPush _ _ _ _ _).1.
Qed.

Lemma notify_probed p test result w :
  probed (out_events (notify E p test result w)) = [] /\
  sleeps (out_events (notify E p test result w)) = 0%nat.
Proof.
  destruct (_r p) as [r|] eqn:Hr.
  - rewrite (notify_connected E _ _ _ _ _ Hr). simpl.
    by destruct (redis_RPush _ _ _ _ _).1.
  - by rewrite (notify_disconnected E _ _ _ _ Hr).
Qed.

Lemma notify_outcomes p test result w :
  outcomes (out_events (notify E p test result w)) = [].
Proof.
  destruct (_r p) as [r|] eqn:Hr.
  - rewrite (notify_connected E _ _ _ _ _ Hr). cbn.
    by destruct (redis_RPush _ _ _ _ _).1.
  - by rewrite (notify_disconnected E _ _ _ _ Hr).
Qed.

Lemma verbose_silent p format args (w : World) :
  verbose p format args w =
  mkOut (Done tt) w (if Verbose p then [EvPrintf format args] else []).
Proof. unfold verbose. by destruct (Verbose p). Qed.

(** The body of the target loop, unfolded once the attempts are over. *)
Lemma run_target_done fuel p tmp tst opts testType testTarget target w result w1 evs :
  attempt_loop E fuel p tmp tst target opts 0 (max_attempts p) None w
  = mkOut (Done result) w1 evs ->
  let n := notify E p (target_copy E tst target) result w1 in
  run_target E fuel p tmp tst opts testType testTarget target w =
  mkOut (Done tt) (out_world n)
        ((if Verbose p
          then [EvPrintf "Running '%s' test against %s (%s)\n"
                         [AStr testType; AStr testTarget; AStr target]]
          else []) ++ evs ++ out_events n).
Proof.
  intros Hloop. unfold run_target.
  rewrite (bind_Done _ _ _ _ _ _ (verbose_silent _ _ _ _)).
  rewrite (bind_Done _ _ _ _ _ _ Hloop).
  destruct (notify_returns E p (target_copy E tst target) result w1) as [err Herr].
  rewrite (bind_Done_res _ _ _ _ Herr).
  unfold ret. cbn [out_res out_world out_events]. by rewrite app_nil_r.
Qed.

(** With a registered probe, a client and a retry count below
    [max_int], one target yields one Result, about that target. *)
Lemma run_target_completes fuel p r h tst opts testType testTarget target w :
  _r p = Some r ->
  max_attempts p < max_int ->
  (Z.to_nat (max_attempts p) <= fuel)%nat ->
  exists w' evs outcome now,
    run_target E fuel p (Some h) tst opts testType testTarget target w
    = mkOut (Done tt) w' evs /\
    payloads evs =
      [json_Marshal E (notify_msg (target_copy E tst target) outcome now)] /\
    Forall (eq target) (probed evs) /\
    (1 <= max_attempts p -> probed evs <> []).
Proof.
  intros Hr Hmax Hfuel.
  destruct (attempt_loop_terminates E p h tst target opts (max_attempts p) Hmax
              (Z.to_nat (max_attempts p)) 0 None
              (if Verbose p then w else w) fuel)
    as (result & w1 & evs & Hloop & Hpay & Hprobed & Hsome); [lia..|].
  assert (Hw : (if Verbose p then w else w) = w) by (by destruct (Verbose p)).
  rewrite Hw in Hloop.
  rewrite (run_target_done _ _ _ _ _ testType testTarget _ _ _ _ _ Hloop).
  eexists _, _, result, (time_Now_Unix E w1). split; [reflexivity|].
  destruct (notify_probed p (target_copy E tst target) result w1) as [Hnp _].
  repeat split.
  - rewrite !payloads_app, Hpay, (notify_payloads _ _ _ _ _ Hr).
    by destruct (Verbose p).
  - rewrite !probed_app, Hnp, app_nil_r.
    by destruct (Verbose p).
  - intros H1. rewrite !probed_app, Hnp, app_nil_r.
    destruct (Verbose p); simpl; apply Hsome; lia.
Qed.

Lemma run_targets_completes fuel p r h tst opts testType testTarget targets :
  _r p = Some r ->
  max_attempts p < max_int ->
  (Z.to_nat (max_attempts p) <= fuel)%nat ->
  forall w,
  exists w' evs,
    run_targets E fuel p (Some h) tst opts testType testTarget targets w
    = mkOut (Done tt) w' evs /\
    Forall2 (fun target j => exists outcome now,
               j = json_Marshal E (notify_msg (target_copy E tst target) outcome now))
            targets (payloads evs) /\
    Forall (fun t => t ∈ targets) (probed evs) /\
    (1 <= max_attempts p -> forall t, t ∈ targets -> t ∈ probed evs).
Proof.
  intros Hr Hmax Hfuel. induction targets as [|target rest IH]; intros w.
  - exists w, []. repeat split; try constructor. intros _ t Ht. by inversion Ht.
  - destruct (run_target_completes fuel p r h tst opts testType testTarget target w
                Hr Hmax Hfuel)
      as (w1 & evs1 & outcome & now & Hrun & Hpay1 & Hprobed1 & Hsome1).
    destruct (IH w1) as (w2 & evs2 & Hrest & Hpay2 & Hprobed2 & Hsome2).
    exists w2, (evs1 ++ evs2). simpl.
    rewrite (bind_Done _ _ _ _ _ _ Hrun), Hrest. simpl. split; [done|].
    rewrite payloads_app, probed_app, Hpay1. repeat split.
    + constructor; [eauto | done].
    + apply Forall_app. split.
      * eapply Forall_impl; [exact Hprobed1|]. intros t <-. set_solver.
      * eapply Forall_impl; [exact Hprobed2|]. intros t Ht. set_solver.
    + intros H1 t Ht. apply elem_of_app. apply elem_of_cons in Ht as [->|Ht].
      * left. specialize (Hsome1 H1).
        destruct (probed evs1) as [|t1 ts]; [done|].
        apply Forall_cons in Hprobed1 as [<- _]. set_solver.
      * right. by apply Hsome2.
Qed.

(** [runTest] after a successful lookup. *)
Lemma runTest_resolved fuel p tst opts host ips w w1 :
  target_host E (Test_Target tst) = inl host ->
  net_LookupIP E host w = (inl ips, w1) ->
  let o := run_targets E fuel p (ProtocolHandler E (Test_Type tst)) tst opts
                       (Test_Type tst) host (select_targets E p ips) w1 in
  runTest E fuel p tst opts w =
  mkOut (match out_res o with
         | Done _ => Done None
         | Panic msg => Panic msg
         | OutOfFuel => OutOfFuel
         end)
        (out_world o) (EvLookupIP host :: out_events o).
Proof.
  intros Hhost Hlookup. unfold runTest. rewrite Hhost.
  unfold bind at 1, lookupIP. rewrite Hlookup. simpl.
  unfold bind. destruct (out_res (run_targets _ _ _ _ _ _ _ _ _ _)); simpl;
    by rewrite ?app_nil_r.
Qed.

(** [runTest] after a failed lookup. *)
Lemma runTest_unresolved fuel p tst opts host err w w1 :
  target_host E (Test_Target tst) = inl host ->
  net_LookupIP E host w = (inr err, w1) ->
  let n := notify E p tst (Some ("Failed to resolve name " +:+ host)) w1 in
  runTest E fuel p tst opts w =
  mkOut (Done (Some err)) (out_world n)
        (EvLookupIP host :: out_events n ++
         [EvPrintf "WARNING: Failed to resolve %s for %s test!\n"
                   [AStr host; AStr (Test_Type tst)]]).
Proof.
  intros Hhost Hlookup. unfold runTest. rewrite Hhost.
  unfold bind at 1, lookupIP. rewrite Hlookup. simpl.
  destruct (notify_returns E p tst (Some ("Failed to resolve name " +:+ host)) w1)
    as [e He].
  rewrite (bind_Done_res _ _ _ _ He).
  unfold bind, log, ret. cbn [out_res out_world out_events app]. done.
Qed.
End Job.

(** ** Resolution failure, empty target list, wire format *)

Section Outcomes.
Context {World : Type}.
Variable E : Env World.

(** Every push of a job is a Result message in the wire format, on the
    results queue. *)
Lemma runTest_pushes_wire_format fuel p tst opts w :
  Forall (fun e =>
            match e with
            | EvRPush key j _ =>
                key = "overseer.results" /\
                exists t outcome now,
                  j = json_Marshal E (notify_msg t outcome now) /\
                  wire_result (notify_msg t outcome now) outcome
            | _ => True
            end)
         (out_events (runTest E fuel p tst opts w)).
Proof.
  destruct (target_host E (Test_Target tst)) as [host|err] eqn:Hhost.
  2: { unfold runTest. rewrite Hhost. constructor. }
  destruct (net_LookupIP E host w) as [[ips|err] w1] eqn:Hlookup.
  - rewrite (runTest_resolved E fuel p tst opts host ips w w1 Hhost Hlookup).
    cbn [out_events]. constructor; [done|].
    eapply Forall_impl; [apply run_targets_events|].
    intros e He. destruct He; try done.
    split; [done|]. eexists _, _, _. split; [done|]. apply notify_msg_wire.
  - rewrite (runTest_unresolved E fuel p tst opts host err w w1 Hhost Hlookup).
    cbn [out_events]. constructor; [done|].
    apply Forall_app. split; [|by repeat constructor].
    destruct (_r p) as [r|] eqn:Hr.
    + rewrite (notify_connected E _ _ _ _ _ Hr). cbn [out_events].
      constructor; [done|]. constructor.
      * split; [done|]. eexists _, _, _. split; [done|]. apply notify_msg_wire.
      * destruct (redis_RPush _ _ _ _ _).1; by repeat constructor.
    + rewrite (notify_disconnected E _ _ _ _ Hr). by repeat constructor.
Qed.
End Outcomes.

(** ** Where the worker departs from the specification *)

Section Departures.
Context {World : Type}.
Variable E : Env World.

(** [runTest] looks the host up first, whatever the registered tester
    answers to [ShouldResolveHostname]. *)
Lemma runTest_always_resolves fuel p tst opts host w :
  target_host E (Test_Target tst) = inl host ->
  head (out_events (runTest E fuel p tst opts w)) = Some (EvLookupIP host).
Proof.
  intros Hhost.
  destruct (net_LookupIP E host w) as [[ips|err] w1] eqn:Hlookup.
  - by rewrite (runTest_resolved E fuel p tst opts host ips w w1 Hhost Hlookup).
  - by rewrite (runTest_unresolved E fuel p tst opts host err w w1 Hhost Hlookup).
Qed.

Lemma attempt_loop_nil_panics fuel p tst target opts attempt maxAttempts result w :
  attempt < maxAttempts ->
  attempt_loop E (S fuel) p None tst target opts attempt maxAttempts result w
  = mkOut (Panic "runtime error: invalid memory address or nil pointer dereference") w [].
Proof.
  intros Hlt. cbn [attempt_loop].
  destruct (Z.ltb_spec attempt maxAttempts) as [_|Hge]; [|lia].
  unfold bind at 1. reflexivity.
Qed.

(** With no tester registered for the type, the first attempt on the
    first target is a call through a nil interface. *)
Lemma runTest_unregistered_panics fuel p tst opts host ips w w1 target rest :
  ProtocolHandler E (Test_Type tst) = None ->
  target_host E (Test_Target tst) = inl host ->
  net_LookupIP E host w = (inl ips, w1) ->
  select_targets E p ips = target :: rest ->
  0 < max_attempts p ->
  out_res (runTest E (S fuel) p tst opts w)
  = Panic "runtime error: invalid memory address or nil pointer dereference" /\
  payloads (out_events (runTest E (S fuel) p tst opts w)) = [] /\
  probed (out_events (runTest E (S fuel) p tst opts w)) = [].
Proof.
  intros Hnone Hhost Hlookup Htargets Hpos.
  rewrite (runTest_resolved E (S fuel) p tst opts host ips w w1 Hhost Hlookup).
  rewrite Hnone, Htargets. cbn [out_res out_events].
  assert (Hrun : run_targets E (S fuel) p None tst opts (Test_Type tst) host
                             (target :: rest) w1
                 = mkOut (Panic "runtime error: invalid memory address or nil pointer dereference") w1
                         (if Verbose p
                          then [EvPrintf "Running '%s' test against %s (%s)\n"
                                  [AStr (Test_Type tst); AStr host; AStr target]]
                          else [])).
  { cbn [run_targets]. unfold run_target.
    rewrite (bind_Panic _ _ _ "runtime error: invalid memory address or nil pointer dereference").
    - rewrite (bind_Done _ _ _ _ _ _ (verbose_silent _ _ _ _)).
      rewrite (bind_Panic _ _ _ "runtime error: invalid memory address or nil pointer dereference")
        by (by rewrite attempt_loop_nil_panics).
      rewrite attempt_loop_nil_panics by done.
      cbn [out_res out_world out_events]. by rewrite app_nil_r.
    - rewrite (bind_Done _ _ _ _ _ _ (verbose_silent _ _ _ _)).
      rewrite (bind_Panic _ _ _ "runtime error: invalid memory address or nil pointer dereference")
        by (by rewrite attempt_loop_nil_panics).
      done. }
  rewrite Hrun. cbn [out_res out_events].
  by destruct (Verbose p).
Qed.

(** Nothing in the loop of [Execute] recovers: the panic ends the worker. *)
Lemma Execute_job_panics fuel p r tst w w0 key line msg :
  _r p = Some r ->
  redis_BLPop E r "overseer.jobs" w0 = ([key; line], w) ->
  parser_ParseLine E line = inl tst ->
  out_res (runTest E fuel p tst (mkTestOptions (Verbose p) (Timeout p)) w) = Panic msg ->
  out_res (Execute_job E fuel p w0) = Panic msg.
Proof.
  intros Hr Hpop Hparse Hpanic. unfold Execute_job. rewrite Hr.
  unfold bind at 1, blpop. rewrite Hpop. cbn. rewrite Hparse.
  unfold bind. by rewrite Hpanic.
Qed.

(** On a failed lookup the pushed message carries the input as
    submitted. *)
Lemma runTest_unresolved_input fuel p r tst opts host err w w1 :
  _r p = Some r ->
  target_host E (Test_Target tst) = inl host ->
  net_LookupIP E host w = (inr err, w1) ->
  exists m,
    payloads (out_events (runTest E fuel p tst opts w)) = [json_Marshal E m] /\
    m !! "input" = Some (Test_Input tst).
Proof.
  intros Hr Hhost Hlookup.
  rewrite (runTest_unresolved E fuel p tst opts host err w w1 Hhost Hlookup).
  cbn [out_events]. eexists. split.
  - change (payloads (EvLookupIP host :: ?l)) with (payloads l).
    rewrite payloads_app, (notify_payloads E _ _ _ _ _ Hr). reflexivity.
  - apply notify_msg_fields.
Qed.

(** The message of a probed target carries the sanitized input. *)
Lemma target_copy_input tst target outcome now :
  notify_msg (target_copy E tst target) outcome now !! "input"
  = Some (Sanitize E tst).
Proof. apply notify_msg_fields. Qed.

(** A probe failing on every attempt: as many probes as [RetryCount], as
    many sleeps, the last of them after the last attempt, and the error of
    the last attempt in the Result. *)
Lemma run_target_all_fail fuel p r h tst opts testType testTarget target w (N : nat) :
  _r p = Some r ->
  Retry p = true ->
  RetryCount p = Z.of_nat N ->
  RetryCount p <= max_int ->
  (1 <= N <= fuel)%nat ->
  always_fails h tst target opts ->
  exists w' evs e now,
    run_target E fuel p (Some h) tst opts testType testTarget target w
    = mkOut (Done tt) w' evs /\
    length (probed evs) = N /\
    sleeps evs = N /\
    last (outcomes evs) = Some (Some e) /\
    payloads evs = [json_Marshal E (notify_msg (target_copy E tst target) (Some e) now)].
Proof.
  intros Hr Hretry Hcount Hmax [H1 Hfuel] Hfails.
  assert (Hm : max_attempts p = Z.of_nat N).
  { unfold max_attempts. by rewrite Hretry. }
  assert (Hle : max_attempts p <= max_int) by lia.
  destruct (attempt_loop_all_fail E p h tst target opts (max_attempts p) Hfails
              Hle N 0 None w fuel)
    as (res & w1 & evs & Hloop & Hlen & Hlenp & Hsl & Hpay & Hres & Hall & _);
    [lia..|].
  rewrite (run_target_done E _ _ _ _ _ testType testTarget _ _ _ _ _ Hloop).
  destruct (notify_probed E p (target_copy E tst target) res w1) as [Hnp Hns].
  destruct (last (outcomes evs)) as [o|] eqn:Hlast.
  2: { apply last_None in Hlast. rewrite Hlast in Hlen. cbn in Hlen. lia. }
  assert (Ho : exists e, o = Some e).
  { apply last_Some in Hlast as [l' Hl']. rewrite Hl' in Hall.
    apply Forall_app in Hall as [_ Hall]. apply Forall_cons in Hall as [Hne _].
    destruct o; [eauto | done]. }
  destruct Ho as [e ->]. cbn in Hres. subst res.
  eexists _, _, e, (time_Now_Unix E w1). split; [reflexivity|].
  rewrite !payloads_app, !probed_app, !sleeps_app, !outcomes_app.
  rewrite Hpay, Hnp, Hns, (notify_payloads E _ _ _ _ _ Hr), (notify_outcomes E).
  destruct (Verbose p); cbn [app length probed outcomes sleeps payloads omap filter];
    rewrite ?app_nil_r, ?Nat.add_0_r; repeat split; try done.
Qed.
End Departures.

Section Passing.
Context {World : Type}.
Variable E : Env World.

(** Below [max_int], a probe passing on its [k]-th invocation is run [k]
    times for the target and the Result pushed for it says "passed". *)
Lemma run_target_passes_on_attempt fuel p r h tst opts testType testTarget
    target w (k : nat) :
  _r p = Some r ->
  Retry p = true ->
  RetryCount p < max_int ->
  succeeds_on_attempt E h tst target opts (RetryDelay p) k w ->
  Z.of_nat k <= RetryCount p ->
  (k <= fuel)%nat ->
  exists w' evs m,
    run_target E fuel p (Some h) tst opts testType testTarget target w
    = mkOut (Done tt) w' evs /\
    length (probed evs) = k /\
    S (sleeps evs) = k /\
    last (outcomes evs) = Some None /\
    payloads evs = [json_Marshal E m] /\
    m !! "result" = Some "passed" /\
    m !! "target" = Some target.
Proof.
  intros Hr Hretry Hmax Hk Hle Hfuel.
  assert (Hm : max_attempts p = RetryCount p).
  { unfold max_attempts. by rewrite Hretry. }
  destruct (attempt_loop_succeeds E p h tst target opts (max_attempts p)
              ltac:(lia) k w Hk 0 None fuel)
    as (w1 & evs & Hloop & Hlen & Hsl & Hlast & Hpay); [lia..|].
  rewrite (run_target_done E _ _ _ _ _ testType testTarget _ _ _ _ _ Hloop).
  destruct (notify_probed E p (target_copy E tst target) None w1) as [Hnp Hns].
  eexists _, _, (notify_msg (target_copy E tst target) None (time_Now_Unix E w1)).
  split; [reflexivity|].
  rewrite !payloads_app, !probed_app, !sleeps_app, !outcomes_app.
  rewrite Hpay, Hnp, Hns, (notify_payloads E _ _ _ _ _ Hr), (notify_outcomes E).
  destruct (notify_msg_wire (target_copy E tst target) None (time_Now_Unix E w1))
    as (_ & Hres & _).
  destruct (notify_msg_fields (target_copy E tst target) None (time_Now_Unix E w1))
    as (_ & Htarget & _).
  destruct (Verbose p); cbn [app length probed outcomes sleeps payloads omap filter];
    rewrite ?app_nil_r, ?Nat.add_0_r; repeat split; done.
Qed.
End Passing.

(** With [RetryCount] at the largest int, the assignment that is meant to
    leave the loop wraps around to the smallest int: a probe that keeps
    passing is run for as long as there is fuel. *)
Lemma sim_pass_does_not_end_loop tst target fuel :
  forall attempt result,
  attempt < max_int ->
  attempt_loop sim_Env fuel (sim_worker true max_int) (Some sim_probe) tst target
               sim_opts attempt max_int result (sim_world [])
  = mkOut OutOfFuel (sim_world [])
          (replicate fuel (EvRunTest tst target sim_opts None)).
Proof.
  induction fuel as [|fuel IH]; intros attempt result Hlt.
  - by apply attempt_loop_no_fuel.
  - assert (Hrun : RunTest sim_probe tst target sim_opts (sim_world [])
                   = (None, sim_world [])) by reflexivity.
    rewrite (attempt_loop_pass sim_Env _ _ _ _ _ _ _ _ _ _ _ Hlt Hrun).
    rewrite wrap64_max_int_succ. rewrite IH by done. reflexivity.
Qed.

Lemma sim_run_target_does_not_end tst testType testTarget target fuel :
  run_target sim_Env fuel (sim_worker true max_int) (Some sim_probe) tst sim_opts
             testType testTarget target (sim_world [])
  = mkOut OutOfFuel (sim_world [])
          (replicate fuel (EvRunTest tst target sim_opts None)).
Proof.
  unfold run_target.
  rewrite (bind_Done _ _ _ _ _ _ (verbose_silent _ _ _ _)).
  change (max_attempts (sim_worker true max_int)) with max_int.
  rewrite bind_OutOfFuel by (by rewrite sim_pass_does_not_end_loop).
  rewrite sim_pass_does_not_end_loop by done. reflexivity.
Qed.

(** ** Fan-out over the resolved addresses *)

(** With a registered probe, a client and an attempt bound below
    [max_int], the job completes with one Result per address of an enabled
    family. *)
Lemma runTest_fans_out
    {World : Type} (E : Env World) (p : workerCmd) (r : redis_Client)
    (h : ProtocolTest World) (tst : Test) (opts : TestOptions)
    (host : string) (ips : list IP) (w w1 : World) (fuel : nat) :
  _r p = Some r ->
  ProtocolHandler E (Test_Type tst) = Some h ->
  max_attempts p < max_int ->
  target_host E (Test_Target tst) = inl host ->
  net_LookupIP E host w = (inl ips, w1) ->
  (Z.to_nat (max_attempts p) <= fuel)%nat ->
  let targets := IP_String E <$> filter (enabled p) ips in
  let o := runTest E fuel p tst opts w in
  out_res o = Done None /\
  Forall2 (fun target j =>
             exists outcome now,
               j = json_Marshal E (notify_msg (target_copy E tst target) outcome now) /\
               notify_msg (target_copy E tst target) outcome now !! "target"
               = Some target)
          targets (payloads (out_events o)) /\
  Forall (fun t => t ∈ targets) (probed (out_events o)) /\
  (1 <= max_attempts p -> forall t, t ∈ targets -> t ∈ probed (out_events o)).
Proof.
  intros Hr Hh Hmax Hhost Hlookup Hfuel targets o. subst o.
  rewrite (runTest_resolved E fuel p tst opts host ips w w1 Hhost Hlookup).
  rewrite Hh, select_targets_enabled. fold targets.
  destruct (run_targets_completes E fuel p r h tst opts (Test_Type tst) host targets
              Hr Hmax Hfuel w1)
    as (w2 & evs & Hrun & Hpay & Hprobed & Hsome).
  rewrite Hrun. cbn [out_res out_events].
  change (payloads (EvLookupIP host :: ?l)) with (payloads l).
  change (probed (EvLookupIP host :: ?l)) with (probed l).
  repeat split; try done.
  eapply Forall2_impl; [exact Hpay|].
  intros target j (outcome & now & ->). exists outcome, now. split; [done|].
  apply notify_msg_fields.
Qed.


(** * The claims *)

(** C1. The worker never consults ShouldResolveHostname.  For the k8s-svc
    tester, which answers false, the target default/kubernetes of the example
    check list is looked up in the DNS; the lookup fails, one failed Result
    about the resolution is pushed and RunTest is never invoked.  A target
    that does resolve (localhost) is probed at its address 127.0.0.1, not as
    the original target string, which the tester then rejects. *)
Theorem C1_unresolved_target_is_looked_up :
  let p := sim_worker false 5 in
  let tst := mkTest "default/kubernetes" "k8s-svc"
                    "default/kubernetes must run k8s-svc" ∅ in
  let named := mkTest "localhost" "k8s-svc" "localhost must run k8s-svc" ∅ in
  let o := runTest sim_Env 5 p tst sim_opts (sim_world []) in
  let o' := runTest sim_Env 5 p named sim_opts (sim_world []) in
  ShouldResolveHostname <$> ProtocolHandler sim_Env "k8s-svc" = Some false /\
  out_events o
  = [EvLookupIP "default/kubernetes";
     EvNotify tst (Some "Failed to resolve name default/kubernetes");
     EvRPush "overseer.results"
       (json_Marshal sim_Env
          (notify_msg tst (Some "Failed to resolve name default/kubernetes")
                      1600000000)) None;
     EvPrintf "WARNING: Failed to resolve %s for %s test!\n"
              [AStr "default/kubernetes"; AStr "k8s-svc"]] /\
  probed (out_events o) = [] /\
  head (out_events o') = Some (EvLookupIP "localhost") /\
  probed (out_events o') = ["127.0.0.1"] /\
  outcomes (out_events o')
  = [Some "not a valid namespace-name/service-name target provided: 127.0.0.1"].
Proof. vm_compute. repeat split; reflexivity. Qed.

(** C3. On a failed lookup the Result message carries the input as it was
    submitted, not its sanitized form: the password of the input line is in
    the pushed message. *)
Theorem C3_resolution_failure_pushes_unsanitized_input :
  let tst := mkTest "db.invalid" "ssh"
                    "db.invalid must run ssh with password 's3cr3t'" ∅ in
  let o := runTest sim_Env 5 (sim_worker true 5) tst sim_opts (sim_world []) in
  Sanitize sim_Env tst = "db.invalid must run ssh with password 'CENSORED'" /\
  strings_Contains (Sanitize sim_Env tst) "s3cr3t" = false /\
  exists m,
    payloads (out_events o) = [json_Marshal sim_Env m] /\
    m !! "input" = Some "db.invalid must run ssh with password 's3cr3t'" /\
    m !! "input" <> Some (Sanitize sim_Env tst).
Proof.
  intros tst o. split; [reflexivity|]. split; [reflexivity|].
  destruct (runTest_unresolved_input sim_Env 5 (sim_worker true 5) sim_client tst
              sim_opts "db.invalid" "lookup db.invalid: no such host"
              (sim_world []) (sim_world []) eq_refl eq_refl eq_refl)
    as (m & Hpay & Hin).
  exists m. split; [exact Hpay|]. split; [exact Hin|].
  rewrite Hin. intros Heq. discriminate Heq.
Qed.

(** C4. With RetryCount 3 and a probe that fails on each attempt, RunTest is
    invoked 3 times and the Result carries the error of the third attempt,
    but the worker sleeps RetryDelay 3 times, not 2: the last sleep comes
    after the final attempt, before the notification. *)
Theorem C4_sleep_after_final_attempt :
  let tst := mkTest "localhost" "ssh" "localhost must run ssh" ∅ in
  let copy := mkTest "127.0.0.1" "ssh" "localhost must run ssh" ∅ in
  let p := sim_worker true 3 in
  let e1 := "dial tcp 127.0.0.1:22: connection refused" in
  let e2 := "dial tcp 127.0.0.1:22: i/o timeout" in
  let e3 := "ssh: handshake failed" in
  let o := runTest sim_Env 3 p tst sim_opts (sim_world [Some e1; Some e2; Some e3]) in
  out_res o = Done None /\
  out_events o
  = [EvLookupIP "localhost";
     EvRunTest tst "127.0.0.1" sim_opts (Some e1); EvSleep (RetryDelay p);
     EvRunTest tst "127.0.0.1" sim_opts (Some e2); EvSleep (RetryDelay p);
     EvRunTest tst "127.0.0.1" sim_opts (Some e3); EvSleep (RetryDelay p);
     EvNotify copy (Some e3);
     EvRPush "overseer.results"
             (json_Marshal sim_Env (notify_msg copy (Some e3) 1600000015)) None] /\
  length (probed (out_events o)) = 3%nat /\
  sleeps (out_events o) = 3%nat.
Proof. vm_compute. repeat split; reflexivity. Qed.

(** C5. With retrying enabled and RetryCount 9223372036854775807, a probe that
    passes on its first attempt is not run exactly once: the assignment
    attempt = maxAttempts + 1 wraps around, the loop goes on, and for every
    number of further iterations the probe has been run that many times and
    no Result has been pushed. *)
Theorem C5_pass_at_largest_retry_count_repeats (fuel : nat) :
  let tst := mkTest "localhost" "ssh" "localhost must run ssh" ∅ in
  let p := sim_worker true max_int in
  let o := runTest sim_Env fuel p tst sim_opts (sim_world []) in
  (Retry p = true /\ RetryCount p = 9223372036854775807) /\
  succeeds_on_attempt sim_Env sim_probe tst "127.0.0.1" sim_opts (RetryDelay p) 1
                      (sim_world []) /\
  out_res o = OutOfFuel /\
  out_events o
  = EvLookupIP "localhost" :: replicate fuel (EvRunTest tst "127.0.0.1" sim_opts None) /\
  payloads (out_events o) = [].
Proof.
  intros tst p o. split; [by split|].
  split; [by apply (soa_now sim_Env _ _ _ _ _ (sim_world []) (sim_world []))|].
  subst o.
  rewrite (runTest_resolved sim_Env fuel p tst sim_opts
             "localhost" [ip_loopback] (sim_world []) (sim_world []) eq_refl eq_refl).
  change (select_targets sim_Env p [ip_loopback]) with ["127.0.0.1"].
  change (ProtocolHandler sim_Env (Test_Type tst)) with (Some sim_probe).
  cbn [run_targets].
  rewrite bind_OutOfFuel by (by rewrite sim_run_target_does_not_end).
  rewrite sim_run_target_does_not_end. cbn [out_res out_events].
  repeat split.
  change (payloads (EvLookupIP "localhost" :: ?l)) with (payloads l).
  induction fuel as [|n IH]; [done | exact IH].
Qed.

(** C6. With retrying enabled and RetryCount 0 (the flag -retry-count 0)
    the attempt loop is not entered.  localhost resolves to one IPv4 address,
    IPv4 is enabled and a probe is registered for the type, yet the job
    pushes one Result "passed" about 127.0.0.1 to overseer.results without
    having invoked the probe, whatever the step budget: the log holds the
    lookup, the notification and the push, and nothing else.  With retrying
    disabled and the same RetryCount the address is probed once before its
    Result is pushed. *)
Theorem C6_zero_retry_count_passes_unprobed (fuel : nat) :
  let tst := mkTest "localhost" "ssh" "localhost must run ssh" ∅ in
  let copy := target_copy sim_Env tst "127.0.0.1" in
  let msg := notify_msg copy None 1600000000 in
  let payload := json_Marshal sim_Env msg in
  let o := runTest sim_Env fuel (sim_worker true 0) tst sim_opts (sim_world []) in
  let o' := runTest sim_Env (S fuel) (sim_worker false 0) tst sim_opts (sim_world []) in
  ProtocolHandler sim_Env (Test_Type tst) = Some sim_probe /\
  net_LookupIP sim_Env "localhost" (sim_world []) = (inl [ip_loopback], sim_world []) /\
  select_targets sim_Env (sim_worker true 0) [ip_loopback] = ["127.0.0.1"] /\
  o = mkOut (Done None) (mkSimWorld 1600000000 [] [payload])
            [EvLookupIP "localhost"; EvNotify copy None;
             EvRPush "overseer.results" payload None] /\
  msg !! "result" = Some "passed" /\
  msg !! "target" = Some "127.0.0.1" /\
  probed (out_events o) = [] /\
  o' = mkOut (Done None) (mkSimWorld 1600000000 [] [payload])
             [EvLookupIP "localhost"; EvRunTest tst "127.0.0.1" sim_opts None;
              EvNotify copy None; EvRPush "overseer.results" payload None].
Proof.
  intros tst copy msg payload o o'. subst o o'.
  repeat split; try reflexivity; destruct fuel; reflexivity.
Qed.

(** C7. If the lookup of the target's host fails, the job of a connected
    worker makes exactly one push, to overseer.results, of one Result message
    about the Test as submitted, with result "failed" and the error
    "Failed to resolve name <host>"; it never invokes the probe's RunTest and
    never sleeps, and runTest returns the lookup error in the world the push
    left: no per-address execution follows.  The log is the lookup, the
    notification, the push with the answer of the queue (and the warning of
    a push the queue refused), and the warning about the resolution. *)
Theorem C7_resolution_failure_single_failed_result
    {World : Type} (E : Env World) (fuel : nat) (p : workerCmd)
    (tst : Test) (opts : TestOptions) (host : string) (err : error) (w w1 : World) :
  target_host E (Test_Target tst) = inl host ->
  net_LookupIP E host w = (inr err, w1) ->
  let o := runTest E fuel (connect p) tst opts w in
  let failure := "Failed to resolve name " +:+ host in
  let m := notify_msg tst (Some failure) (time_Now_Unix E w1) in
  let push := redis_RPush E (mkRedisClient (RedisHost p) (RedisPassword p) (RedisDB p))
                          "overseer.results" (json_Marshal E m) w1 in
  o = mkOut (Done (Some err)) push.2
            ([EvLookupIP host; EvNotify tst (Some failure);
              EvRPush "overseer.results" (json_Marshal E m) push.1]
             ++ match push.1 with
                | Some e => [EvPrintf "Result addition failed: %s\n" [AStr e]]
                | None => []
                end
             ++ [EvPrintf "WARNING: Failed to resolve %s for %s test!\n"
                          [AStr host; AStr (Test_Type tst)]]) /\
  (dom m = {[ "error"; "input"; "result"; "target"; "time"; "type" ]} /\
   m !! "result" = Some "failed" /\
   m !! "error" = Some failure /\
   m !! "target" = Some (Test_Target tst)) /\
  filter is_RPush (out_events o)
  = [EvRPush "overseer.results" (json_Marshal E m) push.1] /\
  payloads (out_events o) = [json_Marshal E m] /\
  probed (out_events o) = [] /\
  sleeps (out_events o) = 0%nat.
Proof.
  intros Hhost Hlookup o failure m push.
  assert (Hr : _r (connect p)
               = Some (mkRedisClient (RedisHost p) (RedisPassword p) (RedisDB p)))
    by reflexivity.
  assert (Ho : o = mkOut (Done (Some err)) push.2
            ([EvLookupIP host; EvNotify tst (Some failure);
              EvRPush "overseer.results" (json_Marshal E m) push.1]
             ++ match push.1 with
                | Some e => [EvPrintf "Result addition failed: %s\n" [AStr e]]
                | None => []
                end
             ++ [EvPrintf "WARNING: Failed to resolve %s for %s test!\n"
                          [AStr host; AStr (Test_Type tst)]])).
  { subst o.
    rewrite (runTest_unresolved E fuel (connect p) tst opts host err w w1 Hhost Hlookup).
    cbv zeta. fold failure.
    rewrite (notify_connected E (connect p) _ tst (Some failure) w1 Hr).
    cbv zeta. fold m. fold push. cbn [out_world out_events app]. reflexivity. }
  destruct (notify_msg_wire tst (Some failure) (time_Now_Unix E w1))
    as (Hdom & Hres & Herr).
  split; [exact Ho|]. split.
  { repeat split; done. }
  rewrite Ho. cbn [out_events app]. by destruct push.1.
Qed.

Lemma C7_resolution_failure_witness :
  let tst := mkTest "db.invalid" "ssh" "db.invalid must run ssh" ∅ in
  let o := runTest sim_Env 5 (connect (sim_worker true 5)) tst sim_opts (sim_world []) in
  let failure := "Failed to resolve name " +:+ "db.invalid" in
  let m := notify_msg tst (Some failure) (time_Now_Unix sim_Env (sim_world [])) in
  let push := redis_RPush sim_Env
                (mkRedisClient (RedisHost (sim_worker true 5))
                               (RedisPassword (sim_worker true 5))
                               (RedisDB (sim_worker true 5)))
                "overseer.results" (json_Marshal sim_Env m) (sim_world []) in
  o = mkOut (Done (Some "lookup db.invalid: no such host")) push.2
            ([EvLookupIP "db.invalid"; EvNotify tst (Some failure);
              EvRPush "overseer.results" (json_Marshal sim_Env m) push.1]
             ++ match push.1 with
                | Some e => [EvPrintf "Result addition failed: %s\n" [AStr e]]
                | None => []
                end
             ++ [EvPrintf "WARNING: Failed to resolve %s for %s test!\n"
                          [AStr "db.invalid"; AStr (Test_Type tst)]]) /\
  (dom m = {[ "error"; "input"; "result"; "target"; "time"; "type" ]} /\
   m !! "result" = Some "failed" /\
   m !! "error" = Some failure /\
   m !! "target" = Some (Test_Target tst)) /\
  filter is_RPush (out_events o)
  = [EvRPush "overseer.results" (json_Marshal sim_Env m) push.1] /\
  payloads (out_events o) = [json_Marshal sim_Env m] /\
  probed (out_events o) = [] /\
  sleeps (out_events o) = 0%nat.
Proof.
  exact (C7_resolution_failure_single_failed_result
           sim_Env 5 (sim_worker true 5)
           (mkTest "db.invalid" "ssh" "db.invalid must run ssh" ∅) sim_opts
           "db.invalid" "lookup db.invalid: no such host"
           (sim_world []) (sim_world []) eq_refl eq_refl).
Defined.



(** C9. The notify of a connected worker pushes exactly one message, on
    overseer.results; it is the encoding of an object whose fields are exactly
    input, result, target, time and type when the outcome is nil, and those
    plus error when the outcome is an error; its result field is "passed" or
    "failed", and "failed" exactly when the outcome is an error, in which case
    the error field is the error's message. *)
Theorem C9_result_message_wire_format
    {World : Type} (E : Env World) (p : workerCmd)
    (test : Test) (result : option error) (w : World) :
  exists m err,
    filter is_RPush (out_events (notify E (connect p) test result w))
    = [EvRPush "overseer.results" (json_Marshal E m) err] /\
    dom m = match result with
            | None => {[ "input"; "result"; "target"; "time"; "type" ]}
            | Some _ => {[ "error"; "input"; "result"; "target"; "time"; "type" ]}
            end /\
    (m !! "result" = Some "passed" \/ m !! "result" = Some "failed") /\
    (m !! "result" = Some "failed" <-> result <> None) /\
    m !! "error" = result.
Proof.
  set (r := mkRedisClient (RedisHost p) (RedisPassword p) (RedisDB p)).
  assert (Hr : _r (connect p) = Some r) by reflexivity.
  exists (notify_msg test result (time_Now_Unix E w)).
  exists (redis_RPush E r "overseer.results"
            (json_Marshal E (notify_msg test result (time_Now_Unix E w))) w).1.
  rewrite (notify_connected E _ _ _ _ _ Hr). cbn [out_events].
  destruct (notify_msg_wire test result (time_Now_Unix E w)) as (Hdom & Hres & Herr).
  split; [|split; [|split; [|split]]].
  - destruct (redis_RPush _ _ _ _ _).1; reflexivity.
  - exact Hdom.
  - rewrite Hres. destruct result; auto.
  - rewrite Hres. destruct result; simpl; split; intros H; congruence.
  - exact Herr.
Qed.

(** C10. If the lookup succeeds but no resolved address belongs to an
    enabled family, runTest resolves the name and does nothing else: the
    probe is not invoked, nothing is notified or pushed, and nil is
    returned. *)
Theorem C10_all_families_disabled_silent
    {World : Type} (E : Env World) (fuel : nat) (p : workerCmd)
    (tst : Test) (opts : TestOptions) (host : string) (ips : list IP) (w w1 : World) :
  target_host E (Test_Target tst) = inl host ->
  net_LookupIP E host w = (inl ips, w1) ->
  (forall ip, ip ∈ ips -> enabled p ip = false) ->
  runTest E fuel p tst opts w = mkOut (Done None) w1 [EvLookupIP host] /\
  probed (out_events (runTest E fuel p tst opts w)) = [] /\
  payloads (out_events (runTest E fuel p tst opts w)) = [].
Proof.
  intros Hhost Hlookup Hdis.
  assert (Hnone : select_targets E p ips = []).
  { rewrite select_targets_enabled, filter_all_false; done. }
  rewrite (runTest_resolved E fuel p tst opts host ips w w1 Hhost Hlookup).
  rewrite Hnone. simpl. done.
Qed.

Lemma C10_all_families_disabled_witness :
  let p := mkWorkerCmd false true true 5 5000000000 "localhost:6379" 0 ""
                       10000000000 false (Some sim_client) in
  let tst := mkTest "localhost" "ssh" "localhost must run ssh" ∅ in
  (forall ip, ip ∈ [ip_loopback] -> enabled p ip = false) /\
  runTest sim_Env 5 p tst sim_opts (sim_world [])
  = mkOut (Done None) (sim_world []) [EvLookupIP "localhost"] /\
  probed (out_events (runTest sim_Env 5 p tst sim_opts (sim_world []))) = [] /\
  payloads (out_events (runTest sim_Env 5 p tst sim_opts (sim_world []))) = [].
Proof.
  intros p tst.
  assert (Hdis : forall ip, ip ∈ [ip_loopback] -> enabled p ip = false).
  { intros ip Hin. apply list_elem_of_singleton in Hin. subst ip. reflexivity. }
  split; [exact Hdis|].
  exact (C10_all_families_disabled_silent
           sim_Env 5 p tst sim_opts "localhost" [ip_loopback]
           (sim_world []) (sim_world []) eq_refl eq_refl Hdis).
Defined.

(** * Further properties *)

(** ** Properties of logs that sequencing preserves *)

Section Closed.
Context {World : Type}.
Variable E : Env World.

Lemma bind_events {A B} (m : M World A) (f : A -> M World B) (w : World) :
  out_events (bind m f w) =
  out_events (m w) ++
  match out_res (m w) with
  | Done a => out_events (f a (out_world (m w)))
  | _ => []
  end.
Proof.
  unfold bind. destruct (out_res (m w)); cbn [out_events]; by rewrite ?app_nil_r.
Qed.

(** A property of logs that holds of the empty log and of the
    concatenation of two logs that have it. *)
Variable P : list Event -> Prop.
Hypothesis P_nil : P [].
Hypothesis P_app : forall l1 l2, P l1 -> P l2 -> P (l1 ++ l2).

Lemma bind_closed {A B} (m : M World A) (f : A -> M World B) (w : World) :
  P (out_events (m w)) ->
  (forall a w', P (out_events (f a w'))) ->
  P (out_events (bind m f w)).
Proof.
  intros Hm Hf. rewrite bind_events. apply P_app; [done|].
  destruct (out_res (m w)); auto.
Qed.

Variable p : workerCmd.
Variable tst : Test.
Variable opts : TestOptions.

(** The targets the property is about: every printed address is one. *)
Variable T : string -> Prop.
Hypothesis T_addresses : forall ip, T (IP_String E ip).

Hypothesis P_verbose :
  forall format args (w : World), P (out_events (verbose p format args w)).
Hypothesis P_lookup : forall host, P [EvLookupIP host].
Hypothesis P_warning :
  forall host testType, P [EvPrintf resolve_warning [AStr host; AStr testType]].
Hypothesis P_notify :
  forall test result w, P (out_events (notify E p test result w)).
Hypothesis P_attempts :
  forall fuel target attempt maxAttempts result w,
    T target ->
    P (out_events (attempt_loop E fuel p (ProtocolHandler E (Test_Type tst)) tst
                                target opts attempt maxAttempts result w)).

Lemma run_target_closed fuel testType testTarget target w :
  T target ->
  P (out_events (run_target E fuel p (ProtocolHandler E (Test_Type tst)) tst opts
                            testType testTarget target w)).
Proof.
  intros HT. unfold run_target.
  apply bind_closed; [apply P_verbose|]. intros _ w1.
  apply bind_closed; [by apply P_attempts|]. intros result w2.
  apply bind_closed; [apply P_notify|]. intros _ w3. exact P_nil.
Qed.

Lemma run_targets_closed fuel testType testTarget targets w :
  Forall T targets ->
  P (out_events (run_targets E fuel p (ProtocolHandler E (Test_Type tst)) tst opts
                             testType testTarget targets w)).
Proof.
  intros HT. revert w. induction HT as [|target rest Ht Hrest IH]; intros w.
  - exact P_nil.
  - cbn [run_targets]. apply bind_closed; [by apply run_target_closed|].
    intros _ w'. apply IH.
Qed.

Lemma select_targets_addresses ips : Forall T (select_targets E p ips).
Proof.
  rewrite select_targets_enabled. apply Forall_fmap, Forall_forall.
  intros ip _. apply T_addresses.
Qed.

(** Such a property holds of the log of every job, however far it gets. *)
Lemma runTest_closed fuel w : P (out_events (runTest E fuel p tst opts w)).
Proof.
  destruct (target_host E (Test_Target tst)) as [host|err] eqn:Hhost.
  2: { unfold runTest. rewrite Hhost. exact P_nil. }
  destruct (net_LookupIP E host w) as [[ips|err] w1] eqn:Hlookup.
  - rewrite (runTest_resolved E fuel p tst opts host ips w w1 Hhost Hlookup).
    cbn [out_events]. apply (P_app [EvLookupIP host]); [apply P_lookup|].
    apply run_targets_closed, select_targets_addresses.
  - rewrite (runTest_unresolved E fuel p tst opts host err w w1 Hhost Hlookup).
    cbn [out_events]. apply (P_app [EvLookupIP host]); [apply P_lookup|].
    apply P_app; [apply P_notify | apply P_warning].
Qed.
End Closed.

(** ** The attempt loop, for every probe and every step budget *)

Lemma sleeps_cons e l :
  sleeps (e :: l) = ((if is_Sleep e then 1 else 0) + sleeps l)%nat.
Proof. unfold sleeps. rewrite filter_cons. by destruct e. Qed.

Lemma failures_cons e l :
  failures (e :: l) =
  ((match e with EvRunTest _ _ _ (Some _) => 1 | _ => 0 end) + failures l)%nat.
Proof.
  unfold failures. destruct e as [| ? ? ? [err|] | | | |]; reflexivity.
Qed.

Lemma failures_app l1 l2 : failures (l1 ++ l2) = (failures l1 + failures l2)%nat.
Proof. unfold failures. by rewrite outcomes_app, filter_app, length_app. Qed.

Lemma failures_le_outcomes l : (failures l <= length (outcomes l))%nat.
Proof. unfold failures. apply length_filter. Qed.

Lemma probed_outcomes_length l : length (probed l) = length (outcomes l).
Proof.
  induction l as [|e l IH]; [done|].
  destruct e; try exact IH.
  change (S (length (probed l)) = S (length (outcomes l))). by rewrite IH.
Qed.

Section AnyProbe.
Context {World : Type}.
Variable E : Env World.
Variable p : workerCmd.
Variable tst : Test.
Variable opts : TestOptions.

Lemma attempt_loop_attempt_events fuel tmp target :
  forall attempt maxAttempts result w,
  Forall (attempt_event p tst target opts)
         (out_events
            (attempt_loop E fuel p tmp tst target opts attempt maxAttempts result w)).
Proof.
  assert (Hverbose : forall format args (w : World),
             Forall (attempt_event p tst target opts)
                    (out_events (verbose p format args w))).
  { intros format args w. unfold verbose.
    destruct (Verbose p) eqn:Hv; [|constructor].
    apply log_events_Forall. exact Hv. }
  induction fuel as [|fuel IH]; intros attempt maxAttempts result w;
    cbn [attempt_loop]; destruct (attempt <? maxAttempts); try constructor.
  apply bind_events_Forall.
  { unfold call_RunTest. destruct tmp as [h|]; [|constructor].
    destruct (RunTest h tst target opts w). by repeat constructor. }
  intros [e|] w'.
  - apply bind_events_Forall; [apply Hverbose|]. intros _ w1.
    apply bind_events_Forall; [apply Hverbose|]. intros _ w2.
    apply bind_events_Forall; [by repeat constructor|]. intros _ w3.
    apply IH.
  - apply bind_events_Forall; [apply Hverbose|]. intros _ w1. apply IH.
Qed.

Lemma attempt_events_quiet target evs :
  Forall (attempt_event p tst target opts) evs ->
  payloads evs = [] /\ filter is_Notify evs = [] /\
  probed evs = replicate (length (outcomes evs)) target.
Proof.
  induction 1 as [|e evs He _ (IH1 & IH2 & IH3)]; [done|].
  destruct e; try done.
  - destruct He as (_ & -> & _). repeat split; try done.
    change (target :: probed evs = target :: replicate (length (outcomes evs)) target).
    by rewrite IH3.
Qed.

(** The worker sleeps once after each failed attempt and at no other
    time. *)
Lemma attempt_loop_balanced fuel tmp target :
  forall attempt maxAttempts result w,
  let evs := out_events
               (attempt_loop E fuel p tmp tst target opts attempt maxAttempts result w) in
  sleeps evs = failures evs.
Proof.
  induction fuel as [|fuel IH]; intros attempt maxAttempts result w.
  - cbn [attempt_loop]. by destruct (attempt <? maxAttempts).
  - destruct (Z.lt_ge_cases attempt maxAttempts) as [Hlt|Hge].
    2: { cbn [attempt_loop].
         destruct (Z.ltb_spec attempt maxAttempts); [lia | done]. }
    destruct tmp as [h|].
    2: { by rewrite attempt_loop_nil_panics. }
    destruct (RunTest h tst target opts w) as [[e|] w1] eqn:Hrun.
    + rewrite (attempt_loop_fail E p h tst target opts _ _ _ _ _ _ _ Hlt Hrun).
      cbn [out_events]. cbv zeta.
      rewrite sleeps_cons, failures_cons, sleeps_app, failures_app.
      destruct (failed_note_silent p (wrap64 (attempt + 1)) maxAttempts e)
        as (_ & Hn2 & Hn3 & _).
      rewrite Hn3. unfold failures at 1. rewrite Hn2.
      rewrite sleeps_cons, failures_cons. cbn [is_Sleep].
      specialize (IH (wrap64 (attempt + 1)) maxAttempts (Some e)
                     (time_Sleep E (RetryDelay p) w1)).
      cbv zeta in IH. rewrite IH. reflexivity.
    + rewrite (attempt_loop_pass E p h tst target opts _ _ _ _ _ _ Hlt Hrun).
      cbn [out_events]. cbv zeta.
      rewrite sleeps_cons, failures_cons, sleeps_app, failures_app.
      destruct (passed_note_silent p (wrap64 (attempt + 1)) maxAttempts)
        as (_ & Hn2 & Hn3 & _).
      rewrite Hn3. unfold failures at 1. rewrite Hn2.
      specialize (IH (wrap64 (maxAttempts + 1)) maxAttempts None w1).
      cbv zeta in IH. rewrite IH. reflexivity.
Qed.
End AnyProbe.

(** ** Jobs *)

(** X1. A target that contains "://" and that url.Parse rejects ends the job
    at once: runTest returns the parse error without looking anything up,
    without invoking a probe and without notifying; the world is left as it
    was. *)
Theorem X1_unparsable_uri_is_dropped_silently
    {World : Type} (E : Env World) (fuel : nat) (p : workerCmd)
    (tst : Test) (opts : TestOptions) (err : error) (w : World) :
  strings_Contains (Test_Target tst) "://" = true ->
  url_Parse E (Test_Target tst) = inr err ->
  runTest E fuel p tst opts w = mkOut (Done (Some err)) w [].
Proof.
  intros Huri Hparse. unfold runTest, target_host. by rewrite Huri, Hparse.
Qed.

Lemma X1_unparsable_uri_witness :
  let tst := mkTest "ftp://[::1" "ssh" "ftp://[::1 must run ssh" ∅ in
  (strings_Contains (Test_Target tst) "://" = true /\
   url_Parse sim_Env (Test_Target tst) = inr "parse ftp://[::1: invalid URI") /\
  runTest sim_Env 3 (sim_worker true 3) tst sim_opts (sim_world [])
  = mkOut (Done (Some "parse ftp://[::1: invalid URI")) (sim_world []) [].
Proof.
  intros tst. split; [by split|].
  exact (X1_unparsable_uri_is_dropped_silently
           sim_Env 3 (sim_worker true 3) tst sim_opts
           "parse ftp://[::1: invalid URI" (sim_world []) eq_refl eq_refl).
Defined.

(** Sleeps and failed attempts go together in every log. *)
Lemma runTest_balanced
    {World : Type} (E : Env World) (fuel : nat) (p : workerCmd)
    (tst : Test) (opts : TestOptions) (w : World) :
  let evs := out_events (runTest E fuel p tst opts w) in
  sleeps evs = failures evs /\
  Forall (fun e => match e with EvSleep d => d = RetryDelay p | _ => True end) evs.
Proof.
  apply (runTest_closed E
           (fun evs =>
              sleeps evs = failures evs /\
              Forall (fun e => match e with
                               | EvSleep d => d = RetryDelay p
                               | _ => True
                               end) evs))
    with (T := fun _ : string => True).
  - by split.
  - intros l1 l2 [H1 F1] [H2 F2]. split.
    + by rewrite sleeps_app, failures_app, H1, H2.
    + by apply Forall_app.
  - done.
  - intros format args w'. rewrite verbose_silent. cbn [out_events].
    destruct (Verbose p); split; by repeat constructor.
  - intros host. split; by repeat constructor.
  - intros host testType. split; by repeat constructor.
  - intros test result w'.
    destruct (notify_probed E p test result w') as [_ Hs].
    split.
    + rewrite Hs. unfold failures. by rewrite notify_outcomes.
    + destruct (_r p) as [r|] eqn:Hr.
      * rewrite (notify_connected E _ _ _ _ _ Hr). cbn [out_events].
        destruct (redis_RPush _ _ _ _ _).1; by repeat constructor.
      * rewrite (notify_disconnected E _ _ _ _ Hr). by repeat constructor.
  - intros fuel' target attempt maxAttempts result w' _. split.
    + apply attempt_loop_balanced.
    + eapply Forall_impl; [apply attempt_loop_attempt_events|].
      intros e He. by destruct e.
Qed.

(** X3. In the log of every job, however far it gets and whatever the probe
    answers, the number of sleeps equals the number of failed attempts, and
    every sleep lasts RetryDelay. *)
Theorem X3_one_sleep_per_failed_attempt
    {World : Type} (E : Env World) (fuel : nat) (p : workerCmd)
    (tst : Test) (opts : TestOptions) (w : World) :
  let evs := out_events (runTest E fuel p tst opts w) in
  sleeps evs = failures evs /\
  Forall (fun e => match e with EvSleep d => d = RetryDelay p | _ => True end) evs.
Proof. apply runTest_balanced. Qed.

(** X6. A worker without a redis client pushes nothing: whatever the job,
    no push occurs in its log. *)
Theorem X6_disconnected_worker_pushes_nothing
    {World : Type} (E : Env World) (fuel : nat) (p : workerCmd)
    (tst : Test) (opts : TestOptions) (w : World) :
  _r p = None ->
  payloads (out_events (runTest E fuel p tst opts w)) = [].
Proof.
  intros Hr.
  apply (runTest_closed E (fun evs => payloads evs = []))
    with (T := fun _ : string => True); try done.
  - intros l1 l2 H1 H2. by rewrite payloads_app, H1, H2.
  - intros format args w'. rewrite verbose_silent. cbn [out_events].
    by destruct (Verbose p).
  - intros test result w'. by rewrite (notify_disconnected E _ _ _ _ Hr).
  - intros fuel' target attempt maxAttempts result w' _.
    by destruct (attempt_events_quiet p tst opts target _
                   (attempt_loop_attempt_events E p tst opts fuel'
                      (ProtocolHandler E (Test_Type tst)) target
                      attempt maxAttempts result w')) as [H _].
Qed.

Lemma X6_disconnected_worker_witness :
  let p := mkWorkerCmd true true true 2 5000000000 "localhost:6379" 0 ""
                       10000000000 false None in
  let tst := mkTest "localhost" "ssh" "localhost must run ssh" ∅ in
  _r p = None /\
  payloads (out_events (runTest sim_Env 3 p tst sim_opts (sim_world [Some "refused"])))
  = [].
Proof.
  intros p tst. split; [reflexivity|].
  exact (X6_disconnected_worker_pushes_nothing
           sim_Env 3 p tst sim_opts (sim_world [Some "refused"]) eq_refl).
Defined.

(** X7. A worker that is not verbose prints nothing but warnings: every
    print in the log of a job is the warning of a failed lookup or the
    warning of a failed push. *)
Theorem X7_quiet_worker_prints_only_warnings
    {World : Type} (E : Env World) (fuel : nat) (p : workerCmd)
    (tst : Test) (opts : TestOptions) (w : World) :
  Verbose p = false ->
  only_warnings (out_events (runTest E fuel p tst opts w)).
Proof.
  intros Hv. unfold only_warnings.
  apply (runTest_closed E
           (Forall (fun e =>
                      match e with
                      | EvPrintf format _ =>
                          format = resolve_warning \/ format = push_warning
                      | _ => True
                      end)))
    with (T := fun _ : string => True).
  - constructor.
  - intros l1 l2 H1 H2. by apply Forall_app.
  - done.
  - intros format args w'. rewrite verbose_silent, Hv. constructor.
  - intros host. by repeat constructor.
  - intros host testType. constructor; [by left | constructor].
  - intros test result w'. destruct (_r p) as [r|] eqn:Hr.
    + rewrite (notify_connected E _ _ _ _ _ Hr). cbn [out_events].
      constructor; [done|]. constructor; [done|].
      destruct (redis_RPush _ _ _ _ _).1; constructor; [by right | constructor].
    + rewrite (notify_disconnected E _ _ _ _ Hr). by repeat constructor.
  - intros fuel' target attempt maxAttempts result w' _.
    eapply Forall_impl; [apply attempt_loop_attempt_events|].
    intros e He. destruct e; try done. cbn in He. congruence.
Qed.

Lemma X7_quiet_worker_witness :
  let tst := mkTest "db.invalid" "ssh" "db.invalid must run ssh" ∅ in
  Verbose (sim_worker true 3) = false /\
  only_warnings (out_events (runTest sim_Env 3 (sim_worker true 3) tst sim_opts
                                     (sim_world []))).
Proof.
  intros tst. split; [reflexivity|].
  exact (X7_quiet_worker_prints_only_warnings
           sim_Env 3 (sim_worker true 3) tst sim_opts (sim_world []) eq_refl).
Defined.

(** ** One target, any probe *)

Section Shape.
Context {World : Type}.
Variable E : Env World.
Variable p : workerCmd.
Variable h : ProtocolTest World.
Variable tst : Test.
Variable target : string.
Variable opts : TestOptions.

(** Below [max_int] the loop runs the probe until it passes or the
    attempts are used up; [errs] are the errors met on the way. *)
Lemma attempt_loop_shape maxAttempts :
  maxAttempts < max_int ->
  forall (n : nat) attempt result w fuel,
  0 <= attempt ->
  maxAttempts - attempt <= Z.of_nat n ->
  (n <= fuel)%nat ->
  exists r w' evs errs,
    attempt_loop E fuel p (Some h) tst target opts attempt maxAttempts result w
    = mkOut (Done r) w' evs /\
    ((outcomes evs = (Some <$> errs) ++ [None] /\ r = None /\
      attempt + Z.of_nat (length errs) < maxAttempts)
     \/
     (outcomes evs = Some <$> errs /\
      r = from_option Some result (last errs) /\
      length errs = Z.to_nat (maxAttempts - attempt))).
Proof.
  intros Hmax. induction n as [|n IH]; intros attempt result w fuel Hge Hn Hfuel.
  - exists result, w, [], []. rewrite attempt_loop_exit by lia.
    split; [done|]. right. repeat split. cbn [length]. lia.
  - destruct (Z.le_gt_cases maxAttempts attempt) as [Hle|Hlt].
    { exists result, w, [], []. rewrite attempt_loop_exit by lia.
      split; [done|]. right. repeat split. cbn [length]. lia. }
    destruct fuel as [|fuel]; [lia|].
    destruct (RunTest h tst target opts w) as [[e|] w1] eqn:Hrun.
    + rewrite (attempt_loop_fail _ _ _ _ _ _ _ _ _ _ _ _ _ Hlt Hrun).
      rewrite wrap64_id by (unfold min_int, max_int in *; lia).
      destruct (IH (attempt + 1) (Some e) (time_Sleep E (RetryDelay p) w1) fuel)
        as (r & w' & evs & errs & Heq & Hshape); [lia..|].
      rewrite Heq. cbn [out_res out_world out_events].
      eexists r, w', _, (e :: errs). split; [reflexivity|].
      destruct (failed_note_silent p (attempt + 1) maxAttempts e)
        as (_ & Hn2 & _ & _).
      change (outcomes (EvRunTest tst target opts (Some e) :: ?l))
        with (Some e :: outcomes l).
      rewrite outcomes_app, Hn2. cbn [app].
      change (outcomes (EvSleep ?d :: ?l)) with (outcomes l).
      destruct Hshape as [(Ho & Hr & Hlen)|(Ho & Hr & Hlen)].
      * left. rewrite Ho. repeat split; [done|]. cbn [length]. lia.
      * right. rewrite Ho. repeat split.
        -- rewrite Hr, last_cons. by destruct (last errs).
        -- cbn [length]. rewrite Hlen. lia.
    + rewrite (attempt_loop_pass _ _ _ _ _ _ _ _ _ _ _ _ Hlt Hrun).
      rewrite (wrap64_id (maxAttempts + 1)) by (unfold min_int, max_int in *; lia).
      rewrite attempt_loop_exit by lia. cbn [out_res out_world out_events].
      eexists None, w1, _, []. split; [reflexivity|]. left.
      destruct (passed_note_silent p (wrap64 (attempt + 1)) maxAttempts)
        as (_ & Hn2 & _ & _).
      change (outcomes (EvRunTest tst target opts None :: ?l))
        with (@None error :: outcomes l).
      rewrite app_nil_r, Hn2. repeat split. cbn [length]. lia.
Qed.
End Shape.

(** The outcome notified for one target, read off the attempts made. *)
Lemma run_target_shape
    {World : Type} (E : Env World) (fuel : nat) (p : workerCmd)
    (h : ProtocolTest World) (tst : Test) (opts : TestOptions)
    (testType testTarget target : string) (w : World) :
  max_attempts p < max_int ->
  (Z.to_nat (max_attempts p) <= fuel)%nat ->
  exists w' evs result errs,
    run_target E fuel p (Some h) tst opts testType testTarget target w
    = mkOut (Done tt) w' evs /\
    filter is_Notify evs = [EvNotify (target_copy E tst target) result] /\
    probed evs = replicate (length (outcomes evs)) target /\
    ((result = None /\ outcomes evs = (Some <$> errs) ++ [None] /\
      Z.of_nat (length errs) < max_attempts p)
     \/
     (result = None /\ outcomes evs = [] /\ max_attempts p <= 0)
     \/
     (exists e, result = Some e /\ last errs = Some e /\
                outcomes evs = Some <$> errs /\
                Z.of_nat (length errs) = max_attempts p)).
Proof.
  intros Hmax Hfuel.
  destruct (attempt_loop_shape E p h tst target opts (max_attempts p) Hmax
              (Z.to_nat (max_attempts p)) 0 None w fuel)
    as (result & w1 & evs & errs & Hloop & Hshape); [lia..|].
  rewrite (run_target_done E _ _ _ _ _ testType testTarget _ _ _ _ _ Hloop).
  destruct (attempt_events_quiet p tst opts target evs) as (_ & Hnot & Hprobed).
  { pose proof (attempt_loop_attempt_events E p tst opts fuel (Some h) target
                  0 (max_attempts p) None w) as Hev.
    by rewrite Hloop in Hev. }
  set (n := notify E p (target_copy E tst target) result w1).
  assert (Hn : filter is_Notify (out_events n)
               = [EvNotify (target_copy E tst target) result]
               /\ probed (out_events n) = [] /\ outcomes (out_events n) = []).
  { subst n. destruct (_r p) as [r|] eqn:Hr.
    - rewrite (notify_connected E _ _ _ _ _ Hr). cbn [out_events].
      by destruct (redis_RPush _ _ _ _ _).1.
    - by rewrite (notify_disconnected E _ _ _ _ Hr). }
  destruct Hn as (Hn1 & Hn2 & Hn3).
  eexists (out_world n), _, result, errs. split; [reflexivity|].
  assert (Hnote : forall l : list Event,
             filter is_Notify ((if Verbose p
                                then [EvPrintf "Running '%s' test against %s (%s)\n"
                                        [AStr testType; AStr testTarget; AStr target]]
                                else []) ++ l) = filter is_Notify l
             /\ probed ((if Verbose p
                         then [EvPrintf "Running '%s' test against %s (%s)\n"
                                 [AStr testType; AStr testTarget; AStr target]]
                         else []) ++ l) = probed l
             /\ outcomes ((if Verbose p
                           then [EvPrintf "Running '%s' test against %s (%s)\n"
                                   [AStr testType; AStr testTarget; AStr target]]
                           else []) ++ l) = outcomes l).
  { intros l. by destruct (Verbose p). }
  destruct (Hnote (evs ++ out_events n)) as (-> & -> & ->).
  rewrite filter_app, probed_app, outcomes_app, Hnot, Hn1, Hn2, Hn3, !app_nil_r.
  split; [done|]. split; [done|].
  destruct Hshape as [(Ho & Hr & Hlen)|(Ho & Hr & Hlen)].
  - left. repeat split; [done..|lia].
  - destruct (last errs) as [e|] eqn:Hlast.
    + right. right. exists e. repeat split; [done..|].
      assert (errs <> []) by (by intros ->).
      destruct errs; [done|]. cbn [length] in *. lia.
    + apply last_None in Hlast. subst errs. right. left.
      repeat split; [done..|]. cbn [length] in Hlen. lia.
Qed.

(** X5. For one target, with a probe registered, an attempt bound below the
    largest int and enough steps, the body of the target loop returns after
    one call of notify on the copy for that target, and the probe has been
    run against that target only, until it passed or the attempts were used
    up: a nil outcome is notified after failures followed by one pass (fewer
    failures than the bound), or after no attempt at all when the bound is
    not positive; an error is notified only after as many failures as the
    bound, and it is the error of the last of them. *)
Theorem X5_target_outcome_is_last_attempt
    {World : Type} (E : Env World) (fuel : nat) (p : workerCmd)
    (h : ProtocolTest World) (tst : Test) (opts : TestOptions)
    (testType testTarget target : string) (w : World) :
  max_attempts p < max_int ->
  (Z.to_nat (max_attempts p) <= fuel)%nat ->
  exists w' evs result errs,
    run_target E fuel p (Some h) tst opts testType testTarget target w
    = mkOut (Done tt) w' evs /\
    filter is_Notify evs = [EvNotify (target_copy E tst target) result] /\
    probed evs = replicate (length (outcomes evs)) target /\
    ((result = None /\ outcomes evs = (Some <$> errs) ++ [None] /\
      Z.of_nat (length errs) < max_attempts p)
     \/
     (result = None /\ outcomes evs = [] /\ max_attempts p <= 0)
     \/
     (exists e, result = Some e /\ last errs = Some e /\
                outcomes evs = Some <$> errs /\
                Z.of_nat (length errs) = max_attempts p)).
Proof. apply run_target_shape. Qed.

Lemma X5_target_outcome_witness :
  let p := sim_worker true 3 in
  let tst := mkTest "localhost" "ssh" "localhost must run ssh" ∅ in
  (max_attempts p < max_int /\ (Z.to_nat (max_attempts p) <= 3)%nat) /\
  exists w' evs result errs,
    run_target sim_Env 3 p (Some sim_probe) tst sim_opts "ssh" "localhost"
               "127.0.0.1" (sim_world [Some "refused"])
    = mkOut (Done tt) w' evs /\
    filter is_Notify evs = [EvNotify (target_copy sim_Env tst "127.0.0.1") result] /\
    probed evs = replicate (length (outcomes evs)) "127.0.0.1" /\
    ((result = None /\ outcomes evs = (Some <$> errs) ++ [None] /\
      Z.of_nat (length errs) < max_attempts p)
     \/
     (result = None /\ outcomes evs = [] /\ max_attempts p <= 0)
     \/
     (exists e, result = Some e /\ last errs = Some e /\
                outcomes evs = Some <$> errs /\
                Z.of_nat (length errs) = max_attempts p)).
Proof.
  intros p tst.
  assert (Hmax : max_attempts p < max_int) by reflexivity.
  assert (Hfuel : (Z.to_nat (max_attempts p) <= 3)%nat) by (vm_compute; lia).
  split; [by split|].
  exact (X5_target_outcome_is_last_attempt
           sim_Env 3 p sim_probe tst sim_opts "ssh" "localhost" "127.0.0.1"
           (sim_world [Some "refused"]) Hmax Hfuel).
Defined.

(** ** All targets of a job *)

Section Summary.
Context {World : Type}.
Variable E : Env World.

(** When the body of the target loop returns for every target with a log
    that satisfies [Q], the loop returns with one such log per target. *)
Lemma run_targets_summary fuel p tmp tst opts testType testTarget
    (Q : string -> list Event -> Prop) :
  (forall target w, exists w' evs,
      run_target E fuel p tmp tst opts testType testTarget target w
      = mkOut (Done tt) w' evs /\ Q target evs) ->
  forall targets w, exists w' segs,
    run_targets E fuel p tmp tst opts testType testTarget targets w
    = mkOut (Done tt) w' (concat segs) /\
    Forall2 Q targets segs.
Proof.
  intros Hbody. induction targets as [|target rest IH]; intros w.
  - exists w, []. split; [done | constructor].
  - destruct (Hbody target w) as (w1 & evs & Hrun & HQ).
    destruct (IH w1) as (w2 & segs & Hrest & HQs).
    exists w2, (evs :: segs). cbn [run_targets concat].
    rewrite (bind_Done _ _ _ _ _ _ Hrun), Hrest. split; [done|].
    by constructor.
Qed.

Lemma probed_concat_bound (N : nat) targets segs :
  Forall2 (fun (_ : string) evs => (length (probed evs) <= N)%nat) targets segs ->
  (length (probed (concat segs)) <= N * length targets)%nat.
Proof.
  induction 1 as [|t evs ts segs Hle _ IH]; [cbn; lia|].
  cbn [concat length]. rewrite probed_app, length_app. lia.
Qed.

Lemma probed_concat_once targets segs :
  Forall2 (fun target evs => probed evs = [target]) targets segs ->
  probed (concat segs) = targets.
Proof.
  induction 1 as [|t evs ts segs Heq _ IH]; [done|].
  cbn [concat]. by rewrite probed_app, Heq, IH.
Qed.

(** Below [max_int] a job probes each enabled address at most
    [max_attempts] times. *)
Lemma runTest_bounded_attempts fuel p h tst opts host ips w w1 :
  ProtocolHandler E (Test_Type tst) = Some h ->
  max_attempts p < max_int ->
  target_host E (Test_Target tst) = inl host ->
  net_LookupIP E host w = (inl ips, w1) ->
  (Z.to_nat (max_attempts p) <= fuel)%nat ->
  let evs := out_events (runTest E fuel p tst opts w) in
  let bound := (Z.to_nat (max_attempts p) * length (filter (enabled p) ips))%nat in
  out_res (runTest E fuel p tst opts w) = Done None /\
  (length (probed evs) <= bound)%nat /\
  (sleeps evs <= bound)%nat.
Proof.
  intros Hh Hmax Hhost Hlookup Hfuel evs bound.
  assert (Hsl : sleeps evs = failures evs) by apply runTest_balanced.
  assert (Hle : (sleeps evs <= length (probed evs))%nat).
  { rewrite Hsl, probed_outcomes_length. apply failures_le_outcomes. }
  subst evs bound.
  rewrite (runTest_resolved E fuel p tst opts host ips w w1 Hhost Hlookup) in *.
  rewrite Hh, select_targets_enabled in *.
  destruct (run_targets_summary fuel p (Some h) tst opts (Test_Type tst) host
              (fun _ evs => (length (probed evs) <= Z.to_nat (max_attempts p))%nat))
    with (targets := IP_String E <$> filter (enabled p) ips) (w := w1)
    as (w2 & segs & Hrun & HQ).
  { intros target w'.
    destruct (run_target_shape E fuel p h tst opts (Test_Type tst) host target w'
                Hmax Hfuel)
      as (w'' & evs & result & errs & Hrun & _ & _ & Hshape).
    exists w'', evs. split; [done|].
    rewrite probed_outcomes_length.
    destruct Hshape as [(_ & -> & Hlen)|[(_ & -> & _)|(e & _ & _ & -> & Hlen)]].
    - rewrite length_app, length_fmap. cbn [length]. lia.
    - cbn [length]. lia.
    - rewrite length_fmap. lia. }
  rewrite Hrun in *. cbn [out_res out_events] in *.
  change (probed (EvLookupIP host :: concat segs)) with (probed (concat segs)) in *.
  pose proof (probed_concat_bound _ _ _ HQ) as Hb.
  rewrite length_fmap in Hb. repeat split; lia.
Qed.

(** With retrying disabled every enabled address is probed exactly once,
    in the order of resolution, whatever the retry count. *)
Lemma runTest_without_retry fuel p h tst opts host ips w w1 :
  Retry p = false ->
  ProtocolHandler E (Test_Type tst) = Some h ->
  target_host E (Test_Target tst) = inl host ->
  net_LookupIP E host w = (inl ips, w1) ->
  (1 <= fuel)%nat ->
  out_res (runTest E fuel p tst opts w) = Done None /\
  probed (out_events (runTest E fuel p tst opts w))
  = IP_String E <$> filter (enabled p) ips.
Proof.
  intros Hretry Hh Hhost Hlookup Hfuel.
  assert (Hm : max_attempts p = 1).
  { unfold max_attempts. by rewrite Hretry. }
  rewrite (runTest_resolved E fuel p tst opts host ips w w1 Hhost Hlookup).
  rewrite Hh, select_targets_enabled.
  destruct (run_targets_summary fuel p (Some h) tst opts (Test_Type tst) host
              (fun target evs => probed evs = [target]))
    with (targets := IP_String E <$> filter (enabled p) ips) (w := w1)
    as (w2 & segs & Hrun & HQ).
  { intros target w'.
    destruct (run_target_shape E fuel p h tst opts (Test_Type tst) host target w')
      as (w'' & evs & result & errs & Hrun & _ & Hprobed & Hshape).
    { rewrite Hm. reflexivity. }
    { rewrite Hm. exact Hfuel. }
    exists w'', evs. split; [done|]. rewrite Hprobed, Hm in *.
    destruct Hshape as [(_ & -> & Hlen)|[(_ & _ & ?)|(e & _ & _ & -> & Hlen)]].
    - destruct errs; [done | cbn [length] in Hlen; lia].
    - lia.
    - destruct errs as [|e1 [|e2 errs]]; cbn [length] in Hlen; [lia | done | lia]. }
  rewrite Hrun. cbn [out_res out_events]. split; [done|].
  change (probed (EvLookupIP host :: concat segs)) with (probed (concat segs)).
  by apply probed_concat_once.
Qed.
(** In the log of one target there are no more sleeps than probes. *)
Lemma run_target_sleeps_le_probes fuel p tmp tst opts testType testTarget target w :
  let evs := out_events (run_target E fuel p tmp tst opts testType testTarget target w) in
  (sleeps evs <= length (probed evs))%nat.
Proof.
  cbv zeta. unfold run_target.
  assert (Hverbose : forall format args (w' : World),
             sleeps (out_events (verbose p format args w')) = 0%nat /\
             probed (out_events (verbose p format args w')) = []).
  { intros format args w'. rewrite verbose_silent. cbn [out_events].
    by destruct (Verbose p). }
  rewrite ?bind_events, ?sleeps_app, ?probed_app, ?length_app.
  destruct (Hverbose "Running '%s' test against %s (%s)\n"
              [AStr testType; AStr testTarget; AStr target] w) as [-> ->].
  cbn [length Nat.add].
  destruct (out_res (verbose p _ _ w)); [|cbn; lia..].
  cbv beta iota. rewrite ?bind_events, ?sleeps_app, ?probed_app, ?length_app.
  set (loop := attempt_loop E fuel p tmp tst target opts 0 (max_attempts p) None _).
  assert (Hloop : (sleeps (out_events loop) <= length (probed (out_events loop)))%nat).
  { subst loop. rewrite attempt_loop_balanced, probed_outcomes_length.
    apply failures_le_outcomes. }
  destruct (out_res loop) as [result| |]; [|cbn; lia..].
  cbv beta iota. rewrite ?bind_events, ?sleeps_app, ?probed_app, ?length_app.
  destruct (notify_probed E p (target_copy E tst target) result (out_world loop))
    as [-> ->].
  destruct (out_res (notify E p _ _ _)); cbn; lia.
Qed.

(** Below [max_int] the log of a job is the lookup followed by one part per
    enabled address, in the order of resolution, each with at most
    [max_attempts] probes, all against that address. *)
Lemma runTest_bounded_per_address fuel p h tst opts host ips w w1 :
  ProtocolHandler E (Test_Type tst) = Some h ->
  max_attempts p < max_int ->
  target_host E (Test_Target tst) = inl host ->
  net_LookupIP E host w = (inl ips, w1) ->
  (Z.to_nat (max_attempts p) <= fuel)%nat ->
  let evs := out_events (runTest E fuel p tst opts w) in
  let bound := (Z.to_nat (max_attempts p) * length (filter (enabled p) ips))%nat in
  out_res (runTest E fuel p tst opts w) = Done None /\
  (exists segs,
      evs = EvLookupIP host :: concat segs /\
      Forall2 (bounded_segment E tst (Z.to_nat (max_attempts p)))
              (IP_String E <$> filter (enabled p) ips) segs) /\
  (length (probed evs) <= bound)%nat /\
  (sleeps evs <= bound)%nat.
Proof.
  intros Hh Hmax Hhost Hlookup Hfuel evs bound.
  destruct (runTest_bounded_attempts fuel p h tst opts host ips w w1
              Hh Hmax Hhost Hlookup Hfuel) as (Hres & Hprobes & Hsleeps).
  split; [exact Hres|]. split; [|by split].
  subst evs.
  rewrite (runTest_resolved E fuel p tst opts host ips w w1 Hhost Hlookup).
  rewrite Hh, select_targets_enabled.
  destruct (run_targets_summary fuel p (Some h) tst opts (Test_Type tst) host
              (bounded_segment E tst (Z.to_nat (max_attempts p))))
    with (targets := IP_String E <$> filter (enabled p) ips) (w := w1)
    as (w2 & segs & Hrun & HQ).
  { intros target w'.
    pose proof (run_target_sleeps_le_probes fuel p (Some h) tst opts (Test_Type tst)
                  host target w') as Hsl.
    destruct (run_target_shape E fuel p h tst opts (Test_Type tst) host target w'
                Hmax Hfuel)
      as (w'' & evs & result & errs & Hrun & Hnotify & Hprobed & Hshape).
    rewrite Hrun in Hsl. cbv zeta in Hsl. cbn [out_events] in Hsl.
    exists w'', evs. split; [done|].
    assert (Hlen : (length (probed evs) <= Z.to_nat (max_attempts p))%nat).
    { rewrite probed_outcomes_length.
      destruct Hshape as [(_ & -> & Hlen)|[(_ & -> & _)|(e & _ & _ & -> & Hlen)]].
      - rewrite length_app, length_fmap. cbn [length]. lia.
      - cbn [length]. lia.
      - rewrite length_fmap. lia. }
    split; [by rewrite probed_outcomes_length|].
    split; [exact Hlen|]. split; [lia|]. by exists result. }
  rewrite Hrun. cbn [out_events]. by exists segs.
Qed.
End Summary.

(** X2. With retrying disabled, whatever RetryCount is, a job whose target
    resolves and whose type has a registered probe returns nil after invoking
    the probe exactly once against each address of an enabled family, in the
    order of resolution. *)
Theorem X2_without_retry_one_probe_per_address
    {World : Type} (E : Env World) (fuel : nat) (p : workerCmd)
    (h : ProtocolTest World) (tst : Test) (opts : TestOptions)
    (host : string) (ips : list IP) (w w1 : World) :
  Retry p = false ->
  ProtocolHandler E (Test_Type tst) = Some h ->
  target_host E (Test_Target tst) = inl host ->
  net_LookupIP E host w = (inl ips, w1) ->
  (1 <= fuel)%nat ->
  out_res (runTest E fuel p tst opts w) = Done None /\
  probed (out_events (runTest E fuel p tst opts w))
  = IP_String E <$> filter (enabled p) ips.
Proof. apply runTest_without_retry. Qed.

Lemma X2_without_retry_witness :
  let p := sim_worker false 9223372036854775807 in
  let tst := mkTest "https://example.com" "ssh" "https://example.com must run ssh" ∅ in
  let w := sim_world [Some "refused"; Some "timeout"] in
  (Retry p = false /\ (1 <= 1)%nat) /\
  out_res (runTest sim_Env 1 p tst sim_opts w) = Done None /\
  probed (out_events (runTest sim_Env 1 p tst sim_opts w))
  = IP_String sim_Env <$> filter (enabled p) [ip_example_v4; ip_example_v6].
Proof.
  intros p tst w.
  assert (Hfuel : (1 <= 1)%nat) by lia.
  split; [by split|].
  exact (X2_without_retry_one_probe_per_address
           sim_Env 1 p sim_probe tst sim_opts "example.com"
           [ip_example_v4; ip_example_v6] w w eq_refl eq_refl eq_refl eq_refl Hfuel).
Defined.

(** X4. With a registered probe and an attempt bound below the largest int,
    a job whose target resolves returns nil, and its log is the lookup
    followed by one part per address of an enabled family, in the order of
    resolution: in the part of an address the probe is invoked at most
    maxAttempts times, always against that address, the worker sleeps at most
    maxAttempts times, and there is one notification, about the copy for that
    address.  So the probes and the sleeps of the whole job number at most
    maxAttempts times the number of such addresses. *)
Theorem X4_attempts_are_bounded
    {World : Type} (E : Env World) (fuel : nat) (p : workerCmd)
    (h : ProtocolTest World) (tst : Test) (opts : TestOptions)
    (host : string) (ips : list IP) (w w1 : World) :
  ProtocolHandler E (Test_Type tst) = Some h ->
  max_attempts p < max_int ->
  target_host E (Test_Target tst) = inl host ->
  net_LookupIP E host w = (inl ips, w1) ->
  (Z.to_nat (max_attempts p) <= fuel)%nat ->
  let evs := out_events (runTest E fuel p tst opts w) in
  let bound := (Z.to_nat (max_attempts p) * length (filter (enabled p) ips))%nat in
  out_res (runTest E fuel p tst opts w) = Done None /\
  (exists segs,
      evs = EvLookupIP host :: concat segs /\
      Forall2 (bounded_segment E tst (Z.to_nat (max_attempts p)))
              (IP_String E <$> filter (enabled p) ips) segs) /\
  (length (probed evs) <= bound)%nat /\
  (sleeps evs <= bound)%nat.
Proof. apply runTest_bounded_per_address. Qed.

Lemma X4_attempts_are_bounded_witness :
  let p := sim_worker true 2 in
  let tst := mkTest "https://example.com" "ssh" "https://example.com must run ssh" ∅ in
  let w := sim_world [Some "refused"; Some "timeout"; Some "refused"] in
  let evs := out_events (runTest sim_Env 2 p tst sim_opts w) in
  (max_attempts p < max_int /\ (Z.to_nat (max_attempts p) <= 2)%nat) /\
  out_res (runTest sim_Env 2 p tst sim_opts w) = Done None /\
  (exists segs,
      evs = EvLookupIP "example.com" :: concat segs /\
      Forall2 (bounded_segment sim_Env tst (Z.to_nat (max_attempts p)))
              (IP_String sim_Env <$> filter (enabled p) [ip_example_v4; ip_example_v6])
              segs) /\
  (length (probed evs)
   <= Z.to_nat (max_attempts p)
      * length (filter (enabled p) [ip_example_v4; ip_example_v6]))%nat /\
  (sleeps evs
   <= Z.to_nat (max_attempts p)
      * length (filter (enabled p) [ip_example_v4; ip_example_v6]))%nat.
Proof.
  intros p tst w evs.
  assert (Hmax : max_attempts p < max_int) by reflexivity.
  assert (Hfuel : (Z.to_nat (max_attempts p) <= 2)%nat) by (vm_compute; lia).
  split; [by split|].
  exact (X4_attempts_are_bounded
           sim_Env 2 p sim_probe tst sim_opts "example.com"
           [ip_example_v4; ip_example_v6] w w eq_refl Hmax eq_refl eq_refl Hfuel).
Defined.

(** ** One iteration of the worker loop *)

Section Iteration.
Context {World : Type}.
Variable E : Env World.

Lemma bind_res {A B} (m : M World A) (f : A -> M World B) (w : World) :
  out_res (bind m f w) =
  match out_res (m w) with
  | Done a => out_res (f a (out_world (m w)))
  | Panic msg => Panic msg
  | OutOfFuel => OutOfFuel
  end.
Proof. unfold bind. by destruct (out_res (m w)). Qed.

(** With a registered probe and an attempt bound below [max_int], a job
    returns whatever happens to its target. *)
Lemma runTest_returns fuel p h tst opts w :
  ProtocolHandler E (Test_Type tst) = Some h ->
  max_attempts p < max_int ->
  (Z.to_nat (max_attempts p) <= fuel)%nat ->
  exists r, out_res (runTest E fuel p tst opts w) = Done r.
Proof.
  intros Hh Hmax Hfuel.
  destruct (target_host E (Test_Target tst)) as [host|err] eqn:Hhost.
  2: { unfold runTest. rewrite Hhost. by eexists. }
  destruct (net_LookupIP E host w) as [[ips|err] w1] eqn:Hlookup.
  - rewrite (runTest_resolved E fuel p tst opts host ips w w1 Hhost Hlookup), Hh.
    destruct (run_targets_summary E fuel p (Some h) tst opts (Test_Type tst) host
                (fun _ _ => True))
      with (targets := select_targets E p ips) (w := w1)
      as (w2 & segs & Hrun & _).
    { intros target w'.
      destruct (run_target_shape E fuel p h tst opts (Test_Type tst) host target w'
                  Hmax Hfuel)
        as (w'' & evs & _ & _ & Hrun & _).
      by exists w'', evs. }
    rewrite Hrun. by eexists.
  - rewrite (runTest_unresolved E fuel p tst opts host err w w1 Hhost Hlookup).
    by eexists.
Qed.

(** The iteration on a connected worker, by what was popped. *)
Lemma Execute_job_popped fuel p r popped w w1 :
  _r p = Some r ->
  redis_BLPop E r "overseer.jobs" w = (popped, w1) ->
  Execute_job E fuel p w =
  (if (1 <=? length popped)%nat then
     match popped !! 1%nat with
     | None => panic "runtime error: index out of range [1] with length 1"
     | Some line =>
         match parser_ParseLine E line with
         | inl job =>
             bind (runTest E fuel p job (mkTestOptions (Verbose p) (Timeout p)))
                  (fun _ => ret tt)
         | inr err =>
             log (EvPrintf "Error parsing job from queue: %s - %s\n"
                           [AStr line; AStr err])
         end
     end
   else ret tt) w1.
Proof.
  intros Hr Hpop. unfold Execute_job. rewrite Hr.
  assert (Hb : blpop E r "overseer.jobs" w = mkOut (Done popped) w1 []).
  { unfold blpop. by rewrite Hpop. }
  rewrite (bind_Done _ _ _ _ _ _ Hb). cbn [app]. apply out_eta.
Qed.

Lemma Execute_job_completes fuel p r w :
  _r p = Some r ->
  length (redis_BLPop E r "overseer.jobs" w).1 <> 1%nat ->
  (forall line job, parser_ParseLine E line = inl job ->
                    is_Some (ProtocolHandler E (Test_Type job))) ->
  max_attempts p < max_int ->
  (Z.to_nat (max_attempts p) <= fuel)%nat ->
  out_res (Execute_job E fuel p w) = Done tt.
Proof.
  intros Hr Hlen Hparser Hmax Hfuel.
  destruct (redis_BLPop E r "overseer.jobs" w) as [popped w1] eqn:Hpop.
  rewrite (Execute_job_popped fuel p r popped w w1 Hr Hpop).
  cbn [fst] in Hlen.
  destruct popped as [|key [|line rest]]; [done | done |].
  cbn [length Nat.leb lookup list_lookup].
  change ((key :: line :: rest) !! 1%nat) with (Some line).
  destruct (parser_ParseLine E line) as [job|err] eqn:Hparse; [|done].
  destruct (Hparser line job Hparse) as [h Hh].
  destruct (runTest_returns fuel p h job (mkTestOptions (Verbose p) (Timeout p)) w1
              Hh Hmax Hfuel) as [res Hres].
  by rewrite bind_res, Hres.
Qed.

Lemma Execute_job_short_pop fuel p r key w w1 :
  _r p = Some r ->
  redis_BLPop E r "overseer.jobs" w = ([key], w1) ->
  Execute_job E fuel p w
  = mkOut (Panic "runtime error: index out of range [1] with length 1") w1 [].
Proof.
  intros Hr Hpop. by rewrite (Execute_job_popped fuel p r [key] w w1 Hr Hpop).
Qed.

Lemma Execute_job_pushes fuel p w :
  Forall (result_push E) (out_events (Execute_job E fuel p w)).
Proof.
  destruct (_r p) as [r|] eqn:Hr.
  2: { unfold Execute_job. rewrite Hr. constructor. }
  destruct (redis_BLPop E r "overseer.jobs" w) as [popped w1] eqn:Hpop.
  rewrite (Execute_job_popped fuel p r popped w w1 Hr Hpop).
  destruct (1 <=? length popped)%nat; [|constructor].
  destruct (popped !! 1%nat) as [line|]; [|constructor].
  destruct (parser_ParseLine E line) as [job|err].
  - apply bind_events_Forall; [|constructor].
    apply runTest_pushes_wire_format.
  - by repeat constructor.
Qed.
End Iteration.

(** X8. Whatever is popped and however the job goes, every push made during
    one iteration of the worker loop goes to overseer.results and carries a
    Result message of the wire format (the fields input, result, target, time
    and type, with error exactly on a failure). *)
Theorem X8_iteration_pushes_only_results
    {World : Type} (E : Env World) (fuel : nat) (p : workerCmd) (w : World) :
  Forall (result_push E) (out_events (Execute_job E fuel p w)).
Proof. apply Execute_job_pushes. Qed.

(** X14. One iteration of the worker loop on a connected worker always
    completes, provided the popped slice does not have exactly one element,
    the parser only yields Tests of a registered type and the attempt bound is
    below the largest int: a line that does not parse, a URI that does not
    parse, a failed lookup, failing probes and failing pushes do not stop the
    loop. *)
Theorem X14_iteration_completes
    {World : Type} (E : Env World) (fuel : nat) (p : workerCmd) (w : World) :
  length (redis_BLPop E (mkRedisClient (RedisHost p) (RedisPassword p) (RedisDB p))
                      "overseer.jobs" w).1 <> 1%nat ->
  (forall line job, parser_ParseLine E line = inl job ->
                    is_Some (ProtocolHandler E (Test_Type job))) ->
  max_attempts p < max_int ->
  (Z.to_nat (max_attempts p) <= fuel)%nat ->
  out_res (Execute_job E fuel (connect p) w) = Done tt.
Proof.
  intros Hlen Hparser Hmax Hfuel.
  by apply (Execute_job_completes E fuel (connect p)
              (mkRedisClient (RedisHost p) (RedisPassword p) (RedisDB p))).
Qed.

Lemma X14_iteration_completes_witness :
  let p := sim_worker true 3 in
  (length (redis_BLPop sim_Env
             (mkRedisClient (RedisHost p) (RedisPassword p) (RedisDB p))
             "overseer.jobs" (sim_world [Some "refused"])).1 <> 1%nat /\
   (forall line job, parser_ParseLine sim_Env line = inl job ->
                     is_Some (ProtocolHandler sim_Env (Test_Type job))) /\
   max_attempts p < max_int /\ (Z.to_nat (max_attempts p) <= 3)%nat) /\
  out_res (Execute_job sim_Env 3 (connect p) (sim_world [Some "refused"])) = Done tt.
Proof.
  intros p.
  assert (Hlen : length (redis_BLPop sim_Env
                           (mkRedisClient (RedisHost p) (RedisPassword p) (RedisDB p))
                           "overseer.jobs" (sim_world [Some "refused"])).1 <> 1%nat)
    by (vm_compute; lia).
  assert (Hparser : forall line job, parser_ParseLine sim_Env line = inl job ->
                                     is_Some (ProtocolHandler sim_Env (Test_Type job))).
  { intros line job Hjob. injection Hjob as <-. by eexists. }
  assert (Hmax : max_attempts p < max_int) by reflexivity.
  assert (Hfuel : (Z.to_nat (max_attempts p) <= 3)%nat) by (vm_compute; lia).
  split; [done|].
  exact (X14_iteration_completes sim_Env 3 p (sim_world [Some "refused"])
           Hlen Hparser Hmax Hfuel).
Defined.

(** X15. When BLPop returns a slice of exactly one element, the guard
    len(test) >= 1 lets it through and the read of test[1] panics: the
    iteration ends in a run-time panic before any job is parsed or run, with
    nothing printed, probed or pushed. *)
Theorem X15_one_element_pop_panics
    {World : Type} (E : Env World) (fuel : nat) (p : workerCmd) (r : redis_Client)
    (key : string) (w w1 : World) :
  _r p = Some r ->
  redis_BLPop E r "overseer.jobs" w = ([key], w1) ->
  exists msg, Execute_job E fuel p w = mkOut (Panic msg) w1 [].
Proof. intros Hr Hpop. eexists. by apply Execute_job_short_pop with r key. Qed.

Lemma X15_one_element_pop_witness :
  _r (sim_worker true 3) = Some sim_client /\
  exists msg,
    Execute_job sim_Env_short_pop 3 (sim_worker true 3) (sim_world [])
    = mkOut (Panic msg) (sim_world []) [].
Proof.
  split; [reflexivity|].
  exact (X15_one_element_pop_panics
           sim_Env_short_pop 3 (sim_worker true 3) sim_client "overseer.jobs"
           (sim_world []) (sim_world []) eq_refl eq_refl).
Defined.

(** ** The entry point *)

Section EntryPoint.
Context {World : Type}.
Variable E : Env World.
Variable redis_Ping : redis_Client -> World -> option error * World.

Lemma Execute_loop_never_returns jobs fuel p :
  forall w u, out_res (Execute_loop E jobs fuel p w) <> Done u.
Proof.
  induction jobs as [|jobs IH]; intros w u; [done|].
  cbn [Execute_loop]. rewrite bind_res.
  destruct (out_res (Execute_job E fuel p w)); [apply IH | done | done].
Qed.

Lemma Execute_ping p w :
  ping redis_Ping (mkRedisClient (RedisHost p) (RedisPassword p) (RedisDB p)) w
  = mkOut (Done (redis_Ping (mkRedisClient (RedisHost p) (RedisPassword p)
                                           (RedisDB p)) w).1)
          (redis_Ping (mkRedisClient (RedisHost p) (RedisPassword p)
                                     (RedisDB p)) w).2 [].
Proof. unfold ping. by destruct (redis_Ping _ w). Qed.

Lemma Execute_ping_failure jobs fuel p e w w1 :
  redis_Ping (mkRedisClient (RedisHost p) (RedisPassword p) (RedisDB p)) w
  = (Some e, w1) ->
  Execute E redis_Ping jobs fuel p w
  = mkOut (Done ExitFailure) w1
          [EvPrintf "Redis connection failed: %s\n" [AStr e]].
Proof.
  intros Hping. unfold Execute. cbn [connect _r].
  rewrite (bind_Done _ _ _ _ _ _ (Execute_ping p w)), Hping. reflexivity.
Qed.

Lemma Execute_returns_only_failure jobs fuel p w status :
  out_res (Execute E redis_Ping jobs fuel p w) = Done status ->
  status = ExitFailure /\
  exists e,
    (redis_Ping (mkRedisClient (RedisHost p) (RedisPassword p) (RedisDB p)) w).1
    = Some e /\
    out_events (Execute E redis_Ping jobs fuel p w)
    = [EvPrintf "Redis connection failed: %s\n" [AStr e]].
Proof.
  destruct (redis_Ping (mkRedisClient (RedisHost p) (RedisPassword p) (RedisDB p)) w)
    as [[e|] w1] eqn:Hping.
  - rewrite (Execute_ping_failure jobs fuel p e w w1 Hping). cbn [out_res out_events fst].
    intros [= <-]. split; [done|]. by exists e.
  - unfold Execute. cbn [connect _r].
    rewrite (bind_Done _ _ _ _ _ _ (Execute_ping p w)), Hping.
    cbn [fst snd out_res]. rewrite bind_res. intros Hres.
    destruct (out_res (Execute_loop E jobs fuel _ w1)) as [u| |] eqn:Hloop;
      try discriminate.
    by apply Execute_loop_never_returns in Hloop.
Qed.
End EntryPoint.

(** X16. When the ping of the redis server fails, Execute prints
    "Redis connection failed" with the error and returns ExitFailure: the job
    loop is not entered. *)
Theorem X16_ping_failure_exits
    {World : Type} (E : Env World)
    (redis_Ping : redis_Client -> World -> option error * World)
    (jobs fuel : nat) (p : workerCmd) (e : error) (w w1 : World) :
  redis_Ping (mkRedisClient (RedisHost p) (RedisPassword p) (RedisDB p)) w
  = (Some e, w1) ->
  Execute E redis_Ping jobs fuel p w
  = mkOut (Done ExitFailure) w1
          [EvPrintf "Redis connection failed: %s\n" [AStr e]].
Proof. apply Execute_ping_failure. Qed.

Lemma X16_ping_failure_witness :
  let down := fun (_ : redis_Client) (w : SimWorld) =>
                (Some "dial tcp 127.0.0.1:6379: connect: connection refused", w) in
  down (mkRedisClient (RedisHost (sim_worker true 3)) (RedisPassword (sim_worker true 3))
                      (RedisDB (sim_worker true 3))) (sim_world [])
  = (Some "dial tcp 127.0.0.1:6379: connect: connection refused", sim_world []) /\
  Execute sim_Env down 4 3 (sim_worker true 3) (sim_world [])
  = mkOut (Done ExitFailure) (sim_world [])
          [EvPrintf "Redis connection failed: %s\n"
             [AStr "dial tcp 127.0.0.1:6379: connect: connection refused"]].
Proof.
  intros down. split; [reflexivity|].
  exact (X16_ping_failure_exits sim_Env down 4 3 (sim_worker true 3)
           "dial tcp 127.0.0.1:6379: connect: connection refused"
           (sim_world []) (sim_world []) eq_refl).
Defined.

(** X17. Execute returns only on a failed ping: whenever it returns, the
    status is ExitFailure, the ping failed and the failure was printed.  Once
    the job loop is entered it never ends by returning, so the final return of
    ExitSuccess is never reached. *)
Theorem X17_execute_returns_only_on_ping_failure
    {World : Type} (E : Env World)
    (redis_Ping : redis_Client -> World -> option error * World)
    (jobs fuel : nat) (p : workerCmd) (w : World) (status : ExitStatus) :
  out_res (Execute E redis_Ping jobs fuel p w) = Done status ->
  status = ExitFailure /\
  exists e,
    (redis_Ping (mkRedisClient (RedisHost p) (RedisPassword p) (RedisDB p)) w).1
    = Some e /\
    out_events (Execute E redis_Ping jobs fuel p w)
    = [EvPrintf "Redis connection failed: %s\n" [AStr e]].
Proof. apply Execute_returns_only_failure. Qed.

Lemma X17_execute_returns_witness :
  let down := fun (_ : redis_Client) (w : SimWorld) => (Some "connection refused", w) in
  out_res (Execute sim_Env down 4 3 (sim_worker true 3) (sim_world [])) = Done ExitFailure /\
  ExitFailure = ExitFailure /\
  exists e,
    (down (mkRedisClient (RedisHost (sim_worker true 3))
                         (RedisPassword (sim_worker true 3))
                         (RedisDB (sim_worker true 3))) (sim_world [])).1 = Some e /\
    out_events (Execute sim_Env down 4 3 (sim_worker true 3) (sim_world []))
    = [EvPrintf "Redis connection failed: %s\n" [AStr e]].
Proof.
  intros down. split; [reflexivity|].
  exact (X17_execute_returns_only_on_ping_failure
           sim_Env down 4 3 (sim_worker true 3) (sim_world []) ExitFailure eq_refl).
Defined.

(** ** Address families *)

Section Families.
Context {World : Type}.
Variable E : Env World.

Lemma enabled_both p ip :
  IPv4 p = true -> IPv6 p = true ->
  enabled p ip <-> (length ip = 4%nat \/ length ip = 16%nat).
Proof.
  intros H4 H6. unfold enabled, is_IPv4, is_IPv6, To4, To16. rewrite H4, H6.
  destruct (Nat.eqb_spec (length ip) 4) as [Hl4|Hl4].
  { split; [by left | done]. }
  destruct (Nat.eqb_spec (length ip) 16) as [Hl16|Hl16].
  - split; [by right|]. intros _.
    destruct (isZeros (take 10 ip)), (byte_is ip 10 Byte.xff),
      (byte_is ip 11 Byte.xff); done.
  - cbn. split; [done | intros [?|?]; done].
Qed.

Lemma select_targets_both p ips :
  IPv4 p = true -> IPv6 p = true ->
  select_targets E p ips
  = IP_String E <$> filter (fun ip => length ip = 4%nat \/ length ip = 16%nat) ips.
Proof.
  intros H4 H6. rewrite select_targets_enabled. f_equal.
  apply list_filter_iff. intros ip. by apply enabled_both.
Qed.
End Families.

(** X9. With both address families enabled, the targets of a job are the
    resolved addresses of 4 or of 16 bytes, each once and in the order of
    resolution; an address of any other length is skipped. *)
Theorem X9_both_families_target_every_address
    {World : Type} (E : Env World) (p : workerCmd) (ips : list IP) :
  IPv4 p = true -> IPv6 p = true ->
  select_targets E p ips
  = IP_String E <$> filter (fun ip => length ip = 4%nat \/ length ip = 16%nat) ips.
Proof. apply select_targets_both. Qed.

Lemma X9_both_families_witness :
  let p := sim_worker true 3 in
  let ips := [ip_example_v4; [Byte.x0a; Byte.x00]; ip_example_v6] in
  (IPv4 p = true /\ IPv6 p = true) /\
  select_targets sim_Env p ips
  = IP_String sim_Env <$> filter (fun ip => length ip = 4%nat \/ length ip = 16%nat) ips.
Proof.
  intros p ips. split; [by split|].
  exact (X9_both_families_target_every_address sim_Env p ips eq_refl eq_refl).
Defined.

(** X10. An IPv4-mapped IPv6 address (the 16 bytes ::ffff:a.b.c.d) is
    governed by the IPv4 switch alone: it is a target exactly when IPv4 is
    enabled, whatever the IPv6 switch says, and it is never targeted
    twice. *)
Theorem X10_mapped_address_follows_ipv4_switch
    {World : Type} (E : Env World) (p : workerCmd) (a b c d : Byte.byte) :
  select_targets E p [v4InV6Prefix ++ [a; b; c; d]]
  = if IPv4 p then [IP_String E (v4InV6Prefix ++ [a; b; c; d])] else [].
Proof.
  cbn [select_targets]. unfold To4, To16. cbn.
  destruct (IPv4 p), (IPv6 p); reflexivity.
Qed.

(** ** The cluster-service tester *)



Lemma strings_Split1_length s sep :
  forall cur, length (strings_Split1 s sep cur) = S (count_char s sep).
Proof.
  induction s as [|c s IH]; intros cur; [done|].
  cbn [strings_Split1 count_char]. destruct (Ascii.eqb c sep).
  - cbn [length]. by rewrite IH.
  - by rewrite IH.
Qed.



Section ClusterService.
Context {World : Type}.
Variable strconv_Atoi : string -> Z + error.
Variable k8s_Endpoints :
  string -> string -> World -> (list (list string) + error) * World.


Lemma K8SSvcTest_rejects tst target opts w :
  count_char target "/" <> 1%nat ->
  K8SSvcTest_RunTest strconv_Atoi k8s_Endpoints tst target opts w
  = (Some (not_a_service target), w).
Proof.
  intros Hc. unfold K8SSvcTest_RunTest.
  rewrite strings_Split1_length.
  destruct (Nat.eqb_spec (S (count_char target "/")) 2) as [Heq|Hne]; [lia|].
  reflexivity.
Qed.

End ClusterService.

(** X11. The cluster-service tester rejects every target that does not
    contain exactly one "/": RunTest returns "not a valid
    namespace-name/service-name target provided" with the target, before the
    min-endpoints argument is read and without any call to the cluster. *)
Theorem X11_service_target_needs_one_slash
    {World : Type} (strconv_Atoi : string -> Z + error)
    (k8s_Endpoints : string -> string -> World -> (list (list string) + error) * World)
    (tst : Test) (target : string) (opts : TestOptions) (w : World) :
  count_char target "/" <> 1%nat ->
  K8SSvcTest_RunTest strconv_Atoi k8s_Endpoints tst target opts w
  = (Some (not_a_service target), w).
Proof. apply K8SSvcTest_rejects. Qed.

Lemma X11_service_target_witness :
  let tst := mkTest "a/b/c" "k8s-svc" "a/b/c must run k8s-svc" ∅ in
  count_char "a/b/c" "/" <> 1%nat /\
  K8SSvcTest_RunTest (fun _ => inl 1)
                     (fun _ _ (w : SimWorld) => (inl [["10.0.0.7"]], w))
                     tst "a/b/c" sim_opts (sim_world [])
  = (Some (not_a_service "a/b/c"), sim_world []).
Proof.
  intros tst.
  assert (Hc : count_char "a/b/c" "/" <> 1%nat) by (vm_compute; lia).
  split; [exact Hc|].
  exact (X11_service_target_needs_one_slash
           (fun _ => inl 1) (fun _ _ (w : SimWorld) => (inl [["10.0.0.7"]], w))
           tst "a/b/c" sim_opts (sim_world []) Hc).
Defined.



Section ClusterServiceJobs.
Context {World : Type}.
Variable E : Env World.
Variable strconv_Atoi : string -> Z + error.
Variable k8s_Endpoints :
  string -> string -> World -> (list (list string) + error) * World.

Lemma attempt_loop_all_rejected fuel p tst opts target :
  count_char target "/" <> 1%nat ->
  forall attempt maxAttempts result w,
  all_rejected
    (out_events
       (attempt_loop E fuel p (Some (K8SSvcTest strconv_Atoi k8s_Endpoints)) tst
                     target opts attempt maxAttempts result w)).
Proof.
  intros Hc. unfold all_rejected.
  assert (Hverbose : forall format args (w : World),
             Forall (fun e => match e with
                              | EvRunTest _ target _ r => r = Some (not_a_service target)
                              | _ => True
                              end)
                    (out_events (verbose p format args w))).
  { intros format args w. rewrite verbose_silent. cbn [out_events].
    destruct (Verbose p); by repeat constructor. }
  induction fuel as [|fuel IH]; intros attempt maxAttempts result w;
    cbn [attempt_loop]; destruct (attempt <? maxAttempts); try constructor.
  apply bind_events_Forall.
  { unfold call_RunTest. cbn [RunTest K8SSvcTest].
    rewrite (K8SSvcTest_rejects strconv_Atoi k8s_Endpoints tst target opts w Hc).
    by repeat constructor. }
  intros [e|] w'.
  - apply bind_events_Forall; [apply Hverbose|]. intros _ w1.
    apply bind_events_Forall; [apply Hverbose|]. intros _ w2.
    apply bind_events_Forall; [by repeat constructor|]. intros _ w3.
    apply IH.
  - apply bind_events_Forall; [apply Hverbose|]. intros _ w1. apply IH.
Qed.

Lemma runTest_all_rejected fuel p tst opts w :
  ProtocolHandler E (Test_Type tst) = Some (K8SSvcTest strconv_Atoi k8s_Endpoints) ->
  (forall ip, count_char (IP_String E ip) "/" <> 1%nat) ->
  all_rejected (out_events (runTest E fuel p tst opts w)).
Proof.
  intros Hh Hip. unfold all_rejected.
  apply (runTest_closed E
           (Forall (fun e => match e with
                             | EvRunTest _ target _ r => r = Some (not_a_service target)
                             | _ => True
                             end)))
    with (T := fun target => count_char target "/" <> 1%nat).
  - constructor.
  - intros l1 l2 H1 H2. by apply Forall_app.
  - exact Hip.
  - intros format args w'. rewrite verbose_silent. cbn [out_events].
    destruct (Verbose p); by repeat constructor.
  - intros host. by repeat constructor.
  - intros host testType. by repeat constructor.
  - intros test result w'. destruct (_r p) as [r|] eqn:Hr.
    + rewrite (notify_connected E _ _ _ _ _ Hr). cbn [out_events].
      destruct (redis_RPush _ _ _ _ _).1; by repeat constructor.
    + rewrite (notify_disconnected E _ _ _ _ Hr). by repeat constructor.
  - intros fuel' target attempt maxAttempts result w' HT. rewrite Hh.
    by apply attempt_loop_all_rejected.
Qed.
End ClusterServiceJobs.

(** X13. Run by this worker, the cluster-service tester never gets as far
    as the cluster: when no address prints with exactly one "/", every
    invocation of its RunTest in the log of a job, whatever the target of the
    Test, ends with "not a valid namespace-name/service-name target provided"
    for the address it was given. *)
Theorem X13_service_tester_rejects_every_address
    {World : Type} (E : Env World) (strconv_Atoi : string -> Z + error)
    (k8s_Endpoints : string -> string -> World -> (list (list string) + error) * World)
    (fuel : nat) (p : workerCmd) (tst : Test) (opts : TestOptions) (w : World) :
  ProtocolHandler E (Test_Type tst) = Some (K8SSvcTest strconv_Atoi k8s_Endpoints) ->
  (forall ip, count_char (IP_String E ip) "/" <> 1%nat) ->
  all_rejected (out_events (runTest E fuel p tst opts w)).
Proof. apply runTest_all_rejected. Qed.

Lemma X13_service_tester_witness :
  let tst := mkTest "localhost" "k8s-svc" "localhost must run k8s-svc" ∅ in
  (forall ip, count_char (IP_String sim_Env ip) "/" <> 1%nat) /\
  all_rejected (out_events (runTest sim_Env 3 (sim_worker true 3) tst sim_opts
                                    (sim_world []))).
Proof.
  intros tst.
  assert (Hip : forall ip, count_char (IP_String sim_Env ip) "/" <> 1%nat).
  { intros ip. cbn [IP_String sim_Env]. unfold sim_IP_String.
    repeat case_bool_decide; vm_compute; lia. }
  split; [exact Hip|].
  exact (X13_service_tester_rejects_every_address
           sim_Env (fun _ => inl 1) (fun _ _ w => (inl [["10.0.0.7"]], w))
           3 (sim_worker true 3) tst sim_opts (sim_world []) eq_refl Hip).
Defined.

(** ** Flag setup *)

Lemma flag_Var_fresh {World : Type} (f : FlagSet) name value usage (w : World) :
  name ∉ flag_name <$> f ->
  flag_Var f name value usage w = mkOut (Done (f ++ [mkFlag name value usage])) w [].
Proof. intros Hf. unfold flag_Var. by rewrite bool_decide_eq_false_2. Qed.

Lemma flag_Var_taken {World : Type} (f : FlagSet) name value usage (w : World) :
  name ∈ flag_name <$> f ->
  flag_Var f name value usage w = mkOut (Panic ("flag redefined: " +:+ name)) w [].
Proof. intros Hf. unfold flag_Var. by rewrite bool_decide_eq_true_2. Qed.

Lemma fresh_after (f : FlagSet) (l : list Flag) (name : string) :
  name ∉ flag_name <$> f ->
  name ∉ flag_name <$> l ->
  name ∉ flag_name <$> (f ++ l).
Proof. intros Hf Hl. rewrite fmap_app. by apply not_elem_of_app. Qed.

(** [name] is one of the ten names. *)
Ltac in_names :=
  unfold worker_flag_names;
  repeat first [apply list_elem_of_here | apply list_elem_of_further].

(** [name] is not among the names of an explicit list of flags. *)
Ltac not_in_names :=
  let H := fresh "H" in
  intros H; apply list_elem_of_In in H; cbn in H; intuition discriminate.

(** [name] is not among the names of [f] followed by explicit flags, by
    [Hin] for [f]. *)
Ltac fresh_name Hin :=
  first [ apply Hin; in_names
        | apply fresh_after; [fresh_name Hin | not_in_names] ].

Section FlagSetup.
Context {World : Type}.
Variable os_Getenv : string -> World -> string.
Variable ioutil_ReadFile : string -> World -> string + error.
Variable json_Unmarshal : string -> workerCmd -> workerCmd * option error.

Lemma load_defaults_returns w :
  exists d evs,
    load_defaults os_Getenv ioutil_ReadFile json_Unmarshal w = mkOut (Done d) w evs.
Proof.
  unfold load_defaults.
  destruct (0 <? String.length (os_Getenv "OVERSEER" w))%nat; [|by eexists _, _].
  destruct (ioutil_ReadFile _ w) as [cfg|e]; [|by eexists _, _].
  destruct (json_Unmarshal cfg builtin_defaults) as [d [e|]]; by eexists _, _.
Qed.

(** On a flag set that defines none of the ten names, [SetFlags] copies
    the loaded defaults into the worker and registers them. *)
Lemma SetFlags_fresh p f w d evs :
  (forall name, name ∈ worker_flag_names -> name ∉ flag_name <$> f) ->
  load_defaults os_Getenv ioutil_ReadFile json_Unmarshal w = mkOut (Done d) w evs ->
  SetFlags os_Getenv ioutil_ReadFile json_Unmarshal p f w
  = mkOut (Done (worker_of d p, f ++ flags_of d)) w evs.
Proof.
  intros Hfresh Hload. unfold SetFlags.
  rewrite (bind_Done _ _ _ _ _ _ Hload).
  assert (Hin : forall name, name ∈ worker_flag_names -> name ∉ flag_name <$> f)
    by exact Hfresh.
  repeat match goal with
  | |- context [bind (flag_Var ?g ?name ?value ?usage) ?k ?w0] =>
      rewrite (bind_Done (flag_Var g name value usage) k w0 _ _ _
                 (flag_Var_fresh g name value usage w0 ltac:(fresh_name Hin)));
      cbn [app out_res out_world out_events]
  end.
  unfold ret. cbn [out_res out_world out_events].
  rewrite !app_nil_r, <- !app_assoc. reflexivity.
Qed.
End FlagSetup.

Lemma taken_before (f : FlagSet) (l : list Flag) (name : string) :
  name ∈ flag_name <$> f -> name ∈ flag_name <$> (f ++ l).
Proof. intros Hf. rewrite fmap_app. apply elem_of_app. by left. Qed.

Section FlagSetupCases.
Context {World : Type}.
Variable os_Getenv : string -> World -> string.
Variable ioutil_ReadFile : string -> World -> string + error.
Variable json_Unmarshal : string -> workerCmd -> workerCmd * option error.

Lemma SetFlags_configured p f w cfg d err :
  (forall name, name ∈ worker_flag_names -> name ∉ flag_name <$> f) ->
  (0 < String.length (os_Getenv "OVERSEER" w))%nat ->
  ioutil_ReadFile (os_Getenv "OVERSEER" w) w = inl cfg ->
  json_Unmarshal cfg builtin_defaults = (d, err) ->
  SetFlags os_Getenv ioutil_ReadFile json_Unmarshal p f w
  = mkOut (Done (worker_of d p, f ++ flags_of d)) w
          match err with
          | Some e => [EvPrintf "WARNING: Error loading overseer.json - %s\n" [AStr e]]
          | None => []
          end.
Proof.
  intros Hfresh Henv Hread Hjson.
  apply SetFlags_fresh; [exact Hfresh|].
  unfold load_defaults.
  destruct (Nat.ltb_spec 0 (String.length (os_Getenv "OVERSEER" w))); [|lia].
  rewrite Hread, Hjson. by destruct err.
Qed.

Lemma SetFlags_unconfigured p f w e :
  (forall name, name ∈ worker_flag_names -> name ∉ flag_name <$> f) ->
  String.length (os_Getenv "OVERSEER" w) = 0%nat \/
  ioutil_ReadFile (os_Getenv "OVERSEER" w) w = inr e ->
  SetFlags os_Getenv ioutil_ReadFile json_Unmarshal p f w
  = mkOut (Done (worker_of builtin_defaults p, f ++ flags_of builtin_defaults)) w
          (if (0 <? String.length (os_Getenv "OVERSEER" w))%nat
           then [EvPrintf "WARNING: Failed to read configuration-file - %s\n" [AStr e]]
           else []).
Proof.
  intros Hfresh Hcase.
  apply SetFlags_fresh; [exact Hfresh|].
  unfold load_defaults.
  destruct (Nat.ltb_spec 0 (String.length (os_Getenv "OVERSEER" w))) as [Hlt|Hge];
    [|done].
  destruct Hcase as [Hzero|Hread]; [lia|]. by rewrite Hread.
Qed.

Lemma SetFlags_redefinition p f w :
  (exists name, name ∈ worker_flag_names /\ name ∈ flag_name <$> f) ->
  exists name,
    name ∈ worker_flag_names /\
    out_res (SetFlags os_Getenv ioutil_ReadFile json_Unmarshal p f w)
    = Panic ("flag redefined: " +:+ name).
Proof.
  intros (name & Hname & Htaken).
  destruct (load_defaults_returns os_Getenv ioutil_ReadFile json_Unmarshal w)
    as (d & evs & Hload).
  unfold SetFlags. rewrite (bind_Done _ _ _ _ _ _ Hload). cbn [out_res].
  repeat match goal with
  | |- context [bind (flag_Var ?g ?n ?value ?usage) ?k ?w0] =>
      destruct (decide (n ∈ flag_name <$> g)) as [Hin|Hout];
      [ exists n; split; [in_names|];
        rewrite (bind_Panic (flag_Var g n value usage) k w0
                            ("flag redefined: " +:+ n))
          by (by rewrite flag_Var_taken);
        reflexivity
      | rewrite (bind_Done (flag_Var g n value usage) k w0 _ _ _
                   (flag_Var_fresh g n value usage w0 Hout));
        cbn [app out_res out_world out_events];
        assert (n ∉ flag_name <$> f)
          by (intros Hf; apply Hout; repeat (apply taken_before); exact Hf);
        clear Hout ]
  end.
  exfalso. apply list_elem_of_In in Hname. cbn in Hname.
  repeat (destruct Hname as [<-|Hname]; [done|]). done.
Qed.
End FlagSetupCases.

(** X18. On a flag set that defines none of the ten names, with a
    configuration file that can be read, SetFlags returns having registered
    the ten flags with the values json.Unmarshal left in the defaults, and
    having set the ten fields of the worker to those same values; the client
    of the worker is not touched.  A decoding error only adds one warning:
    the values the decoder had set before it failed are used all the same. *)
Theorem X18_configuration_file_sets_defaults
    {World : Type} (os_Getenv : string -> World -> string)
    (ioutil_ReadFile : string -> World -> string + error)
    (json_Unmarshal : string -> workerCmd -> workerCmd * option error)
    (p : workerCmd) (f : FlagSet) (w : World) (cfg : string) (d : workerCmd)
    (err : option error) :
  (forall name, name ∈ worker_flag_names -> name ∉ flag_name <$> f) ->
  (0 < String.length (os_Getenv "OVERSEER" w))%nat ->
  ioutil_ReadFile (os_Getenv "OVERSEER" w) w = inl cfg ->
  json_Unmarshal cfg builtin_defaults = (d, err) ->
  SetFlags os_Getenv ioutil_ReadFile json_Unmarshal p f w
  = mkOut (Done (worker_of d p, f ++ flags_of d)) w
          match err with
          | Some e => [EvPrintf "WARNING: Error loading overseer.json - %s\n" [AStr e]]
          | None => []
          end.
Proof. apply SetFlags_configured. Qed.

Lemma X18_configuration_file_witness :
  let getenv := fun (_ : string) (_ : unit) => "/etc/overseer.json" in
  let readfile := fun (_ : string) (_ : unit) =>
                    (inl "{ RetryCount: 2, Verbose: tru" : string + error) in
  let unmarshal := fun (_ : string) (d : workerCmd) =>
                     (mkWorkerCmd (IPv4 d) (IPv6 d) (Retry d) 2 (RetryDelay d)
                                  (RedisHost d) (RedisDB d) (RedisPassword d)
                                  (Timeout d) (Verbose d) (_r d),
                      Some "invalid character 'u' in literal true") in
  let help := mkFlag "help" (FBool false) "Show usage." in
  let d := mkWorkerCmd true true true 2 5000000000 "localhost:6379" 0 ""
                       10000000000 false None in
  SetFlags getenv readfile unmarshal (sim_worker false 9) [help] tt
  = mkOut (Done (worker_of d (sim_worker false 9), [help] ++ flags_of d)) tt
          [EvPrintf "WARNING: Error loading overseer.json - %s\n"
             [AStr "invalid character 'u' in literal true"]].
Proof.
  intros getenv readfile unmarshal help d.
  assert (Hfresh : forall name, name ∈ worker_flag_names ->
                                name ∉ flag_name <$> [help]).
  { intros name Hin Hf. apply list_elem_of_In in Hin, Hf. cbn in Hin, Hf.
    destruct Hf as [<-|[]].
    repeat (destruct Hin as [Hin|Hin]; [discriminate Hin|]). exact Hin. }
  assert (Henv : (0 < String.length (getenv "OVERSEER" tt))%nat)
    by (vm_compute; lia).
  exact (X18_configuration_file_sets_defaults getenv readfile unmarshal
           (sim_worker false 9) [help] tt
           "{ RetryCount: 2, Verbose: tru" d
           (Some "invalid character 'u' in literal true")
           Hfresh Henv eq_refl eq_refl).
Defined.

(** X19. On a flag set that defines none of the ten names, when OVERSEER is
    unset or empty, or names a file that cannot be read, SetFlags returns with
    the built-in defaults (both families and retrying enabled, 5 attempts, 5 s
    delay, 10 s timeout, localhost:6379, database 0, no password, not verbose)
    in the worker and in the ten flags; the unreadable file costs one warning,
    the unset variable nothing. *)
Theorem X19_missing_configuration_keeps_builtin_defaults
    {World : Type} (os_Getenv : string -> World -> string)
    (ioutil_ReadFile : string -> World -> string + error)
    (json_Unmarshal : string -> workerCmd -> workerCmd * option error)
    (p : workerCmd) (f : FlagSet) (w : World) (e : error) :
  (forall name, name ∈ worker_flag_names -> name ∉ flag_name <$> f) ->
  String.length (os_Getenv "OVERSEER" w) = 0%nat \/
  ioutil_ReadFile (os_Getenv "OVERSEER" w) w = inr e ->
  SetFlags os_Getenv ioutil_ReadFile json_Unmarshal p f w
  = mkOut (Done (worker_of builtin_defaults p, f ++ flags_of builtin_defaults)) w
          (if (0 <? String.length (os_Getenv "OVERSEER" w))%nat
           then [EvPrintf "WARNING: Failed to read configuration-file - %s\n" [AStr e]]
           else []).
Proof. apply SetFlags_unconfigured. Qed.

Lemma X19_missing_configuration_witness :
  let getenv := fun (_ : string) (_ : unit) => "/etc/overseer.json" in
  let readfile := fun (_ : string) (_ : unit) =>
                    (inr "open /etc/overseer.json: no such file or directory"
                     : string + error) in
  let unmarshal := fun (_ : string) (d : workerCmd) => (d, None : option error) in
  let help := mkFlag "help" (FBool false) "Show usage." in
  SetFlags getenv readfile unmarshal (sim_worker false 9) [help] tt
  = mkOut (Done (worker_of builtin_defaults (sim_worker false 9),
                 [help] ++ flags_of builtin_defaults)) tt
          [EvPrintf "WARNING: Failed to read configuration-file - %s\n"
             [AStr "open /etc/overseer.json: no such file or directory"]].
Proof.
  intros getenv readfile unmarshal help.
  assert (Hfresh : forall name, name ∈ worker_flag_names ->
                                name ∉ flag_name <$> [help]).
  { intros name Hin Hf. apply list_elem_of_In in Hin, Hf. cbn in Hin, Hf.
    destruct Hf as [<-|[]].
    repeat (destruct Hin as [Hin|Hin]; [discriminate Hin|]). exact Hin. }
  exact (X19_missing_configuration_keeps_builtin_defaults getenv readfile unmarshal
           (sim_worker false 9) [help] tt
           "open /etc/overseer.json: no such file or directory"
           Hfresh (or_intror eq_refl)).
Defined.

(** X20. On a flag set that already defines one of the ten names, SetFlags
    does not return: registering that name panics, whatever the environment
    and the configuration file hold. *)
Theorem X20_defined_flag_name_panics
    {World : Type} (os_Getenv : string -> World -> string)
    (ioutil_ReadFile : string -> World -> string + error)
    (json_Unmarshal : string -> workerCmd -> workerCmd * option error)
    (p : workerCmd) (f : FlagSet) (w : World) :
  (exists name, name ∈ worker_flag_names /\ name ∈ flag_name <$> f) ->
  exists msg,
    out_res (SetFlags os_Getenv ioutil_ReadFile json_Unmarshal p f w) = Panic msg.
Proof.
  intros Htaken.
  destruct (SetFlags_redefinition os_Getenv ioutil_ReadFile json_Unmarshal p f w Htaken)
    as (name & _ & Hpanic).
  by eexists.
Qed.

Lemma X20_defined_flag_name_witness :
  let getenv := fun (_ : string) (_ : unit) => EmptyString in
  let readfile := fun (_ : string) (_ : unit) => (inl EmptyString : string + error) in
  let unmarshal := fun (_ : string) (d : workerCmd) => (d, None : option error) in
  let taken := mkFlag "retry" (FInt 3) "Retries of the caller." in
  exists msg,
    out_res (SetFlags getenv readfile unmarshal (sim_worker false 9) [taken] tt)
    = Panic msg.
Proof.
  intros getenv readfile unmarshal taken.
  assert (Htaken : exists name, name ∈ worker_flag_names /\
                                name ∈ flag_name <$> [taken]).
  { exists "retry". split; [in_names|]. cbn. apply list_elem_of_here. }
  exact (X20_defined_flag_name_panics getenv readfile unmarshal
           (sim_worker false 9) [taken] tt Htaken).
Defined.

(** ** What the error returned by a job means *)

Lemma runTest_error_origin
    {World : Type} (E : Env World) (fuel : nat) (p : workerCmd)
    (tst : Test) (opts : TestOptions) (err : error) (w : World) :
  out_res (runTest E fuel p tst opts w) = Done (Some err) ->
  probed (out_events (runTest E fuel p tst opts w)) = [] /\
  (target_host E (Test_Target tst) = inr err \/
   exists host, target_host E (Test_Target tst) = inl host /\
                (net_LookupIP E host w).1 = inr err).
Proof.
  destruct (target_host E (Test_Target tst)) as [host|err'] eqn:Hhost.
  2: { unfold runTest. rewrite Hhost. cbn [ret out_res out_events].
       intros [= ->]. split; [done | by left]. }
  destruct (net_LookupIP E host w) as [[ips|err'] w1] eqn:Hlookup.
  - rewrite (runTest_resolved E fuel p tst opts host ips w w1 Hhost Hlookup).
    cbn [out_res]. by destruct (out_res (run_targets _ _ _ _ _ _ _ _ _ _)).
  - rewrite (runTest_unresolved E fuel p tst opts host err' w w1 Hhost Hlookup).
    cbn [out_res out_events]. intros [= ->]. split.
    + change (probed (EvLookupIP host :: ?l)) with (probed l).
      rewrite probed_app.
      by rewrite (proj1 (notify_probed E p tst _ w1)).
    + right. exists host. split; [done|]. by rewrite Hlookup.
Qed.

(** X21. The error a job returns is never the outcome of a probe or of a
    push: when runTest returns an error, it is the error of url.Parse or the
    error of net.LookupIP, and no probe was invoked.  Failing tests and
    failing pushes are only ever reported through the results queue and the
    printed warnings. *)
Theorem X21_returned_error_is_parse_or_lookup
    {World : Type} (E : Env World) (fuel : nat) (p : workerCmd)
    (tst : Test) (opts : TestOptions) (err : error) (w : World) :
  out_res (runTest E fuel p tst opts w) = Done (Some err) ->
  probed (out_events (runTest E fuel p tst opts w)) = [] /\
  (target_host E (Test_Target tst) = inr err \/
   exists host, target_host E (Test_Target tst) = inl host /\
                (net_LookupIP E host w).1 = inr err).
Proof. apply runTest_error_origin. Qed.

Lemma X21_returned_error_witness :
  let tst := mkTest "ftp://[::1" "ssh" "ftp://[::1 must run ssh" ∅ in
  let o := runTest sim_Env 3 (sim_worker true 3) tst sim_opts (sim_world []) in
  out_res o = Done (Some "parse ftp://[::1: invalid URI") /\
  probed (out_events o) = [] /\
  (target_host sim_Env (Test_Target tst) = inr "parse ftp://[::1: invalid URI" \/
   exists host, target_host sim_Env (Test_Target tst) = inl host /\
                (net_LookupIP sim_Env host (sim_world [])).1
                = inr "parse ftp://[::1: invalid URI").
Proof.
  intros tst o. split; [reflexivity|].
  exact (X21_returned_error_is_parse_or_lookup
           sim_Env 3 (sim_worker true 3) tst sim_opts
           "parse ftp://[::1: invalid URI" (sim_world []) eq_refl).
Defined.

(** ** What a probe is handed *)

Lemma runTest_probes
    {World : Type} (E : Env World) (fuel : nat) (p : workerCmd)
    (tst : Test) (opts : TestOptions) (w : World) :
  Forall (probe_of E p tst opts w) (out_events (runTest E fuel p tst opts w)).
Proof.
  assert (Hnotify : forall test result w',
             Forall (probe_of E p tst opts w)
                    (out_events (notify E p test result w'))).
  { intros test result w'. destruct (_r p) as [r|] eqn:Hr.
    - rewrite (notify_connected E _ _ _ _ _ Hr). cbn [out_events].
      destruct (redis_RPush _ _ _ _ _).1; by repeat constructor.
    - rewrite (notify_disconnected E _ _ _ _ Hr). by repeat constructor. }
  destruct (target_host E (Test_Target tst)) as [host|err] eqn:Hhost.
  2: { unfold runTest. rewrite Hhost. constructor. }
  destruct (net_LookupIP E host w) as [[ips|err] w1] eqn:Hlookup.
  - rewrite (runTest_resolved E fuel p tst opts host ips w w1 Hhost Hlookup).
    cbn [out_events]. constructor; [done|].
    apply (run_targets_closed E (Forall (probe_of E p tst opts w)))
      with (T := fun target : string =>
                   exists ip, ip ∈ ips /\ enabled p ip = true /\
                              target = IP_String E ip).
    + constructor.
    + intros l1 l2 H1 H2. by apply Forall_app.
    + intros format args w'. rewrite verbose_silent. cbn [out_events].
      destruct (Verbose p); by repeat constructor.
    + exact Hnotify.
    + intros fuel' target attempt maxAttempts result w' (ip & Hin & Hon & ->).
      eapply Forall_impl; [apply attempt_loop_attempt_events|].
      intros e He. destruct e; try done.
      destruct He as (-> & -> & ->). repeat split.
      exists host, ips, ip. rewrite Hhost, Hlookup. by repeat split.
    + rewrite select_targets_enabled. apply Forall_fmap, Forall_forall.
      intros ip [Hon Hin]%list_elem_of_filter. exists ip.
      repeat split; [done|]. by apply Is_true_true.
  - rewrite (runTest_unresolved E fuel p tst opts host err w w1 Hhost Hlookup).
    cbn [out_events]. constructor; [done|].
    apply Forall_app. split; [apply Hnotify | by repeat constructor].
Qed.

Lemma Execute_job_probes
    {World : Type} (E : Env World) (fuel : nat) (p : workerCmd)
    (r : redis_Client) (w : World) :
  _r p = Some r ->
  let pop := redis_BLPop E r "overseer.jobs" w in
  Forall (probe_of_job E p pop.1 pop.2) (out_events (Execute_job E fuel p w)).
Proof.
  intros Hr pop. subst pop.
  destruct (redis_BLPop E r "overseer.jobs" w) as [popped w1] eqn:Hpop.
  rewrite (Execute_job_popped E fuel p r popped w w1 Hr Hpop). cbn [fst snd].
  destruct (1 <=? length popped)%nat; [|constructor].
  destruct (popped !! 1%nat) as [line|] eqn:Hline; [|constructor].
  destruct (parser_ParseLine E line) as [job|err] eqn:Hparse.
  - apply bind_events_Forall; [|constructor].
    eapply Forall_impl; [apply runTest_probes|].
    intros e He. destruct e; try done.
    pose proof He as (-> & _). split; [by exists line | exact He].
  - by repeat constructor.
Qed.

(** X22. During one iteration of the loop of a worker with a redis client,
    every probe that is invoked is handed the Test exactly as the parser
    produced it from the second element of the popped slice (not the copy
    made for the notification), the options copied from the Verbose and
    Timeout fields of the worker, and as target the printed form of an
    address that net.LookupIP returned for the host of that Test, of a family
    that is enabled. *)
Theorem X22_probe_gets_parsed_test_and_worker_options
    {World : Type} (E : Env World) (fuel : nat) (p : workerCmd)
    (r : redis_Client) (w : World) :
  _r p = Some r ->
  let pop := redis_BLPop E r "overseer.jobs" w in
  Forall (probe_of_job E p pop.1 pop.2) (out_events (Execute_job E fuel p w)).
Proof. apply Execute_job_probes. Qed.

Lemma X22_probe_arguments_witness :
  let p := sim_worker true 3 in
  let w := sim_world [Some "refused"] in
  let pop := redis_BLPop sim_Env sim_client "overseer.jobs" w in
  probed (out_events (Execute_job sim_Env 3 p w)) = ["127.0.0.1"; "127.0.0.1"] /\
  Forall (probe_of_job sim_Env p pop.1 pop.2) (out_events (Execute_job sim_Env 3 p w)).
Proof.
  intros p w pop. split; [reflexivity|].
  exact (X22_probe_gets_parsed_test_and_worker_options
           sim_Env 3 p sim_client w eq_refl).
Defined.
